(** * tools/package.py: rolling up the Dafny files of a chapter

    The script derives a submission name from the current working
    directory, hands the [*.dfy] entries of that directory to [tar] and
    tells the student which file to upload.  This development embeds the
    script in a small process monad (reader of the working directory,
    state of the directory listing, log of observable events, Python
    exceptions and [SystemExit]) and proves the properties of its
    specification.

    Conventions.  A Python [str] is a Rocq [string]; the characters the
    script inspects (the separator, the dot and the letters of its
    literals) are ASCII, so byte-wise and code-point-wise comparison agree
    on them.  The platform is POSIX: [os.sep] is the slash and
    [os.path] is [posixpath].  A directory is the list of names that
    [os.listdir] would return, in the order it returns them. *)

From Stdlib Require Import String Ascii List ZArith Bool Lia.
Import ListNotations.

Open Scope list_scope.
Open Scope string_scope.

(** ** Python strings and lists *)

(** The line feed written as a backslash escape in the source. *)
Definition nl : string := String (ascii_of_nat 10) "".

(** [s.startswith(pre)] *)
Fixpoint startswith (s pre : string) {struct pre} : bool :=
  match pre with
  | "" => true
  | String c pre' =>
      match s with
      | "" => false
      | String d s' => Ascii.eqb c d && startswith s' pre'
      end
  end.

(** [needle in hay] for two strings: substring containment. *)
Fixpoint contains (needle hay : string) : bool :=
  startswith hay needle ||
  match hay with
  | "" => false
  | String _ hay' => contains needle hay'
  end.

(** [s.split(sep)] for a separator of one character: every occurrence of
    the separator ends a segment, so the result has one more element than
    [s] has separators, and is never empty. *)
Fixpoint split (sep : ascii) (s : string) : list string :=
  match s with
  | "" => [""]
  | String c s' =>
      if Ascii.eqb c sep then "" :: split sep s'
      else match split sep s' with
           | [] => [String c ""]
           | seg :: rest => String c seg :: rest
           end
  end.

(** [sep.join(l)] *)
Fixpoint join (sep : string) (l : list string) : string :=
  match l with
  | [] => ""
  | x :: rest =>
      match rest with
      | [] => x
      | _ :: _ => x ++ sep ++ join sep rest
      end
  end.

(** [sep * n] *)
Fixpoint str_mul (sep : string) (n : nat) : string :=
  match n with
  | O => ""
  | S n' => sep ++ str_mul sep n'
  end.

(** What a Python computation can end in: a value, a raised exception, or
    [SystemExit] carrying the code given to [sys.exit]. *)
Inductive exn : Type := IndexError | OtherError.

Definition exn_eqb (a b : exn) : bool :=
  match a, b with
  | IndexError, IndexError => true
  | OtherError, OtherError => true
  | _, _ => false
  end.

Inductive res (A : Type) : Type :=
| Ret (a : A)
| Raise (e : exn)
| SysExit (code : Z).

Arguments Ret {A} a.
Arguments Raise {A} e.
Arguments SysExit {A} code.

(** [l[i]] with Python's negative indices: a negative index counts from
    the end, and an index outside the list raises [IndexError]. *)
Definition getitem {A : Type} (l : list A) (i : Z) : res A :=
  let len := Z.of_nat (length l) in
  let j := if (i <? 0)%Z then (i + len)%Z else i in
  if ((j <? 0) || (len <=? j))%Z then Raise IndexError
  else match nth_error l (Z.to_nat j) with
       | Some x => Ret x
       | None => Raise IndexError
       end.

(** ** posixpath *)

Module posixpath.

(** One step of the loop of [normpath] over the components: empty and
    [.] components are skipped; [..] pops the previous component unless
    there is none to pop (relative path) or the previous one is itself
    [..]; at the root a [..] is dropped. *)
Definition norm_step (initial_slashes : nat) (new_comps : list string)
    (comp : string) : list string :=
  if String.eqb comp "" || String.eqb comp "." then new_comps
  else if negb (String.eqb comp "..")
          || (Nat.eqb initial_slashes 0 && Nat.eqb (length new_comps) 0)
          || (negb (Nat.eqb (length new_comps) 0)
              && String.eqb (last new_comps "") "..")
       then (new_comps ++ [comp])%list
       else removelast new_comps.

(** [posixpath.normpath]: collapse repeated slashes and resolve [.] and
    [..] textually.  One or two leading slashes are kept, three or more
    become one. *)
Definition normpath (path : string) : string :=
  if String.eqb path "" then "."
  else
    let initial_slashes :=
      if startswith path "/" then
        if startswith path "//" && negb (startswith path "///") then 2
        else 1
      else 0 in
    let comps := split "/" path in
    let new_comps := fold_left (norm_step initial_slashes) comps [] in
    let path' := str_mul "/" initial_slashes ++ join "/" new_comps in
    if String.eqb path' "" then "." else path'.

End posixpath.

(** ** fnmatch and glob *)

Module fnmatch.

(** Shell-style matching of a whole name against a pattern made of
    literal characters, [?] (any one character) and [*] (any run of
    characters, also empty).  Matching is case-sensitive on POSIX, where
    [os.path.normcase] is the identity.  Bracket expressions are not
    modelled; the one pattern of the script has none. *)
Fixpoint fnmatch (pat name : string) : bool :=
  match pat with
  | "" => match name with "" => true | String _ _ => false end
  | String p pat' =>
      if Ascii.eqb p "*" then
        (fix star (n : string) : bool :=
           fnmatch pat' n ||
           match n with
           | "" => false
           | String _ n' => star n'
           end) name
      else
        match name with
        | "" => false
        | String c name' =>
            (Ascii.eqb p "?" || Ascii.eqb p c) && fnmatch pat' name'
        end
  end.

(** [fnmatch.filter(names, pat)] keeps the matching names in order. *)
Definition filter (names : list string) (pat : string) : list string :=
  List.filter (fnmatch pat) names.

End fnmatch.

(** ** The process and its environment *)

Inductive stream : Type := Stdout | Stderr.

(** What an observer of the process sees, in order: text written to one
    of the two streams, and child processes run to completion, with the
    argument vector and the status the child returned. *)
Inductive event : Type :=
| Write (fd : stream) (text : string)
| Spawn (argv : list string) (status : Z).

(** The state the script runs in: the working directory of the process,
    the names in that directory, and the events so far.  The runs covered
    are those in which the interpreter's own requests to the operating
    system are served: the working directory can be read and listed, the
    child can be started and waited for, the streams take the text. *)
Record world : Type := World {
  cwd : string;
  dir : list string;
  log : list event
}.

(** A child program, seen from the script: from its argument vector and
    the directory it is started in, the directory it leaves behind and
    its exit status.  The script fixes neither; they belong to whatever
    the operating system finds under the name [argv[0]]. *)
Definition program : Type := list string -> list string -> list string * Z.

(** Computations of the script. *)
Definition Proc (A : Type) : Type := world -> res A * world.

Definition ret {A : Type} (a : A) : Proc A := fun w => (Ret a, w).

Definition bind {A B : Type} (m : Proc A) (k : A -> Proc B) : Proc B :=
  fun w =>
    match m w with
    | (Ret a, w') => k a w'
    | (Raise e, w') => (Raise e, w')
    | (SysExit c, w') => (SysExit c, w')
    end.

Declare Scope proc_scope.
Delimit Scope proc_scope with proc.
Notation "x <- m ;; k" := (bind m (fun x => k))
  (at level 61, m at next level, right associativity) : proc_scope.
Notation "m ;; k" := (bind m (fun _ => k))
  (at level 61, right associativity) : proc_scope.

(** Lift a pure Python expression that may raise. *)
Definition eval {A : Type} (r : res A) : Proc A := fun w => (r, w).

(** [try: body  except E: handler].  Only the named exception is caught;
    [SystemExit] and other exceptions pass through. *)
Definition try_except {A : Type} (body : Proc A) (E : exn)
    (handler : Proc A) : Proc A :=
  fun w =>
    match body w with
    | (Raise e, w') => if exn_eqb e E then handler w' else (Raise e, w')
    | other => other
    end.

Definition emit (e : event) : Proc unit :=
  fun w => (Ret tt, World (cwd w) (dir w) (log w ++ [e])%list).

Module os.

Definition sep : ascii := "/"%char.

Definition getcwd : Proc string := fun w => (Ret (cwd w), w).

Definition listdir : Proc (list string) := fun w => (Ret (dir w), w).

End os.

Module sys.

Definition stdout_write (text : string) : Proc unit :=
  emit (Write Stdout text).

Definition stderr_write (text : string) : Proc unit :=
  emit (Write Stderr text).

Definition exit {A : Type} (code : Z) : Proc A := fun w => (SysExit code, w).

End sys.

Module glob.

(** A name is hidden when its first character is a dot. *)
Definition _ishidden (name : string) : bool :=
  match name with
  | String c _ => Ascii.eqb c "."
  | "" => false
  end.

(** [glob.glob(pattern)] for a pattern without directory part: the names
    of the current directory that match, in listing order.  Hidden names
    are dropped first unless the pattern itself starts with a dot. *)
Definition glob (pattern : string) : Proc (list string) :=
  (names <- os.listdir ;;
   let names :=
     if negb (_ishidden pattern)
     then List.filter (fun x => negb (_ishidden x)) names
     else names in
   ret (fnmatch.filter names pattern))%proc.

End glob.

Module subprocess.

(** [subprocess.call(argv)]: run the child, wait for it, return its
    status.  The child may have changed the directory meanwhile. *)
Definition call (exec : program) (argv : list string) : Proc Z :=
  fun w =>
    let (dir', status) := exec argv (dir w) in
    (Ret status, World (cwd w) dir' (log w ++ [Spawn argv status])%list).

End subprocess.

(** ** The script *)

(** The test of the list comprehension. *)
Definition names_chapter (segment : string) : bool :=
  contains "chapter" segment || contains "project" segment.

(** The body of [package.py], statement by statement.  [exec] is the
    program the system runs for the command line. *)
Definition script (exec : program) : Proc unit :=
  (cwd <- os.getcwd ;;
   let path := posixpath.normpath cwd in
   chapter <-
     try_except
       (eval (getitem (List.filter names_chapter (split os.sep path)) (-1)))
       IndexError
       (sys.stderr_write
          ("Cannot determine chapter name from current path." ++ nl) ;;
        sys.exit (-1)) ;;
   let package_name := chapter ++ ".tgz" in
   matched <- glob.glob "*.dfy" ;;
   let cmd := (["tar"; "-czf"; package_name] ++ matched)%list in
   _ <- subprocess.call exec cmd ;;
   sys.stdout_write
     ("Please upload " ++ package_name ++ " to the submission site." ++ nl))%proc.

(** Running a script as a program: falling off the end is [sys.exit(0)];
    an exception nobody caught ends the interpreter with code 1. *)
Definition run (p : Proc unit) (w : world) : Z * world :=
  match p w with
  | (Ret _, w') => (0%Z, w')
  | (SysExit code, w') => (code, w')
  | (Raise _, w') => (1%Z, w')
  end.

Definition main (exec : program) (w : world) : Z * world :=
  run (script exec) w.

(** The status the parent of the interpreter receives: the low eight bits
    of the code. *)
Definition wait_status (code : Z) : Z := Z.land code 255.

(** ** Reading a run *)

(** The name the script settles on, computed as the script computes it. *)
Definition chapter_of (w : world) : res string :=
  getitem (List.filter names_chapter
             (split os.sep (posixpath.normpath (cwd w)))) (-1).

(** The text that reached a stream, pieces in order. *)
Fixpoint written (fd : stream) (l : list event) : list string :=
  match l with
  | [] => []
  | Write fd' text :: l' =>
      match fd, fd' with
      | Stdout, Stdout | Stderr, Stderr => text :: written fd l'
      | _, _ => written fd l'
      end
  | Spawn _ _ :: l' => written fd l'
  end.

(** The command lines that were run. *)
Fixpoint spawned (l : list event) : list (list string) :=
  match l with
  | [] => []
  | Spawn argv _ :: l' => argv :: spawned l'
  | Write _ _ :: l' => spawned l'
  end.

(** The names after the first three words of a [tar -czf NAME ...]
    command line. *)
Definition members (argv : list string) : list string := skipn 3 argv.

(** The observable outcome of one run from [w]. *)
Definition exit_code (exec : program) (w : world) : Z := fst (main exec w).

Definition events (exec : program) (w : world) : list event :=
  skipn (length (log w)) (log (snd (main exec w))).

Definition dir_after (exec : program) (w : world) : list string :=
  dir (snd (main exec w)).

(** The names the script collects from a listing. *)
Definition dfy_files (names : list string) : list string :=
  fnmatch.filter (List.filter (fun x => negb (glob._ishidden x)) names) "*.dfy".

(** The command line the script builds once it has a name. *)
Definition command (w : world) (chapter : string) : list string :=
  (["tar"; "-czf"; (chapter ++ ".tgz")%string] ++ dfy_files (dir w))%list.

Definition success_message (chapter : string) : string :=
  "Please upload " ++ (chapter ++ ".tgz") ++ " to the submission site." ++ nl.

Definition failure_message : string :=
  "Cannot determine chapter name from current path." ++ nl.

(** ** The specification's vocabulary *)

(** [needle] occurs in [hay]. *)
Definition Substring (needle hay : string) : Prop :=
  exists before after, hay = before ++ needle ++ after.

(** A segment names a chapter or a project. *)
Definition Names_chapter (segment : string) : Prop :=
  Substring "chapter" segment \/ Substring "project" segment.

(** [x] is the last element of [l] with property [P]. *)
Definition Last_with {A : Type} (P : A -> Prop) (l : list A) (x : A) : Prop :=
  exists before after,
    l = (before ++ x :: after)%list /\ P x /\ Forall (fun y => ~ P y) after.

(** The segments of the normalized working directory. *)
Definition segments (w : world) : list string :=
  split os.sep (posixpath.normpath (cwd w)).

(** [chapter] is the derived submission name of [w]. *)
Definition Derived_name (w : world) (chapter : string) : Prop :=
  Last_with Names_chapter (segments w) chapter.

(** [name] ends in [suffix]. *)
Definition Ends_with (suffix name : string) : Prop :=
  exists stem, name = stem ++ suffix.

(** [name] matches the shell pattern [*.dfy]: it ends in [.dfy] and, as
    for every shell wildcard, does not start with a dot. *)
Definition Matches_star_dfy (name : string) : Prop :=
  Ends_with ".dfy" name /\ forall rest, name <> String "." rest.

(** The character [c] does not occur in [s]. *)
Definition Free_of (c : ascii) (s : string) : Prop :=
  ~ In c (list_ascii_of_string s).

(** How many times [c] occurs in [s]. *)
Fixpoint count_char (c : ascii) (s : string) : nat :=
  match s with
  | "" => 0
  | String d s' => (if Ascii.eqb d c then 1 else 0) + count_char c s'
  end.

(** A directory name as it occurs in the working directory the operating
    system reports: non-empty, free of slashes and neither [.] nor
    [..]. *)
Definition Component (c : string) : Prop :=
  c <> "" /\ c <> "." /\ c <> ".." /\ Free_of "/" c.

(** The absolute path through the given directory names. *)
Definition abspath (comps : list string) : string :=
  "/" ++ join "/" comps.

(** An absolute path written out piece by piece, a slash in front of
    each piece.  Every string that starts with a slash is the path of
    its slash-free pieces, empty pieces standing for doubled and
    trailing slashes. *)
Fixpoint path_of (pieces : list string) : string :=
  match pieces with
  | [] => ""
  | piece :: rest => "/" ++ piece ++ path_of rest
  end.

(** What normalizing an absolute path means, read piece by piece with
    [above] the directory names reached so far: an empty piece and a dot
    stay where they are, a double dot goes back up one name (at the root
    there is none, and it stays at the root), any other piece goes down
    into the directory of that name.  [names] are the directory names
    reached when the pieces are used up. *)
Inductive Resolves_from : list string -> list string -> list string -> Prop :=
| Resolves_end (above : list string) :
    Resolves_from above [] above
| Resolves_stay (above : list string) (piece : string)
    (rest names : list string) :
    piece = "" \/ piece = "." ->
    Resolves_from above rest names ->
    Resolves_from above (piece :: rest) names
| Resolves_up (above rest names : list string) :
    Resolves_from (removelast above) rest names ->
    Resolves_from above (".." :: rest) names
| Resolves_down (above : list string) (piece : string)
    (rest names : list string) :
    piece <> "" -> piece <> "." -> piece <> ".." ->
    Resolves_from (above ++ [piece])%list rest names ->
    Resolves_from above (piece :: rest) names.

(** The archiver creates or replaces at most the file it is asked to
    write: every other name is in the directory afterwards exactly when
    it was there before. *)
Definition Touches_only_archive (exec : program) : Prop :=
  forall argv d f,
    f <> nth 2 argv "" -> (In f (fst (exec argv d)) <-> In f d).

(** ** Sample archivers and worlds *)

(** The directory with a file NAME in it, no other name touched. *)
Definition archiver (name : string) (d : list string) : list string :=
  if existsb (String.eqb name) d then d else (d ++ [name])%list.

(** GNU tar as this script meets it.  Called with at least one member
    after [tar -czf NAME] it leaves a file NAME behind and returns 0.
    Called with no member at all it refuses to create an empty archive:
    the directory stays as it is and the status is 2. *)
Definition tar_ok : program :=
  fun argv d =>
    match skipn 3 argv with
    | [] => (d, 2%Z)
    | _ :: _ => (archiver (nth 2 argv "") d, 0%Z)
    end.

(** A child that fails without leaving anything. *)
Definition tar_fails : program := fun _ d => (d, 2%Z).

(** The scenario of the specification: two Dafny files in [chapter3]. *)
Definition w_chapter3 : world :=
  World "/home/user/course/chapter3" ["a.dfy"; "b.dfy"] [].

(** A working directory that names no chapter. *)
Definition w_lab3 : world :=
  World "/home/user/course/lab3" ["a.dfy"] [].

(** A chapter directory without Dafny files. *)
Definition w_empty : world :=
  World "/home/user/course/chapter3" ["notes.txt"] [].

(** A chapter directory with a hidden Dafny file. *)
Definition w_hidden : world :=
  World "/home/user/course/chapter3" [".hidden.dfy"; "a.dfy"] [].

(** * Proofs *)

(** ** Strings *)

Lemma append_nil_r (s : string) : s ++ "" = s.
Proof. induction s as [|c s IH]; simpl; [reflexivity | now rewrite IH]. Qed.

Lemma append_assoc (a b c : string) : (a ++ b) ++ c = a ++ b ++ c.
Proof. induction a as [|x a IH]; simpl; [reflexivity | now rewrite IH]. Qed.

Lemma length_append (a b : string) :
  String.length (a ++ b) = String.length a + String.length b.
Proof. induction a as [|x a IH]; simpl; [reflexivity | now rewrite IH]. Qed.

Lemma append_inv_same_length (a b x y : string) :
  a ++ x = b ++ y -> String.length a = String.length b -> a = b /\ x = y.
Proof.
  revert b; induction a as [|c a IH]; intros [|d b] E L; simpl in *;
    try discriminate.
  - now split.
  - injection E as -> E. injection L as L.
    destruct (IH _ E L) as [-> ->]. now split.
Qed.

Lemma append_inv_suffix_length (a b x y : string) :
  a ++ x = b ++ y -> String.length x = String.length y -> a = b /\ x = y.
Proof.
  intros E L. apply append_inv_same_length; [exact E|].
  apply (f_equal String.length) in E. rewrite !length_append in E. lia.
Qed.

Lemma startswith_spec (s pre : string) :
  startswith s pre = true <-> exists rest, s = pre ++ rest.
Proof.
  revert s; induction pre as [|c pre IH]; intros s; simpl.
  - split; [intros _; now exists s | reflexivity].
  - destruct s as [|d s].
    + split; [discriminate | intros [r E]; discriminate].
    + rewrite andb_true_iff, Ascii.eqb_eq, IH. split.
      * intros [-> [r ->]]. now exists r.
      * intros [r E]. injection E as -> ->. split; [reflexivity | now exists r].
Qed.

Lemma contains_spec (needle hay : string) :
  contains needle hay = true <-> Substring needle hay.
Proof.
  unfold Substring. induction hay as [|c hay IH].
  - simpl. rewrite orb_false_r, startswith_spec. split.
    + intros [r E]. now exists "", r.
    + intros [[|x b] [a E]]; simpl in E; [now exists a | discriminate].
  - cbn [contains]. rewrite orb_true_iff, startswith_spec, IH. split.
    + intros [[r E] | [b [a E]]].
      * now exists "", r.
      * exists (String c b), a. simpl. now rewrite E.
    + intros [[|x b] [a E]]; simpl in E.
      * left. now exists a.
      * right. injection E as _ E. now exists b, a.
Qed.

Lemma names_chapter_spec (segment : string) :
  names_chapter segment = true <-> Names_chapter segment.
Proof.
  unfold names_chapter, Names_chapter.
  now rewrite orb_true_iff, !contains_spec.
Qed.

Lemma names_chapter_false (segment : string) :
  names_chapter segment = false <-> ~ Names_chapter segment.
Proof.
  rewrite <- names_chapter_spec. destruct (names_chapter segment);
    split; congruence.
Qed.

Lemma Substring_length (needle hay : string) :
  Substring needle hay -> String.length needle <= String.length hay.
Proof.
  intros [b [a ->]]. rewrite !length_append. lia.
Qed.

(** ** Lists *)

Section LastWith.

Variable A : Type.
Variable p : A -> bool.
Variable P : A -> Prop.
Hypothesis p_spec : forall x, p x = true <-> P x.

Lemma p_false (x : A) : p x = false <-> ~ P x.
Proof. rewrite <- p_spec. destruct (p x); split; congruence. Qed.

Lemma getitem_last_snoc (l : list A) (x : A) :
  getitem (l ++ [x])%list (-1) = Ret x.
Proof.
  unfold getitem. rewrite length_app. simpl length.
  replace (-1 <? 0)%Z with true by reflexivity.
  replace (-1 + Z.of_nat (length l + 1))%Z with (Z.of_nat (length l)) by lia.
  replace (Z.of_nat (length l) <? 0)%Z with false by (symmetry; apply Z.ltb_ge; lia).
  replace (Z.of_nat (length l + 1) <=? Z.of_nat (length l))%Z with false
    by (symmetry; apply Z.leb_gt; lia).
  simpl. rewrite Nat2Z.id, nth_error_app2, Nat.sub_diag by lia. reflexivity.
Qed.

Lemma getitem_last_nil : getitem (@nil A) (-1) = Raise IndexError.
Proof. reflexivity. Qed.

Lemma snoc_cases (l : list A) : l = [] \/ exists l' x, l = (l' ++ [x])%list.
Proof.
  destruct l as [|y l]; [now left | right].
  exists (removelast (y :: l)), (last (y :: l) y).
  apply app_removelast_last. discriminate.
Qed.

Lemma getitem_last_ret (l : list A) (x : A) :
  getitem l (-1) = Ret x <-> exists l', l = (l' ++ [x])%list.
Proof.
  split.
  - destruct (snoc_cases l) as [-> | [l' [y ->]]].
    + rewrite getitem_last_nil. discriminate.
    + rewrite getitem_last_snoc. intros [= ->]. now exists l'.
  - intros [l' ->]. apply getitem_last_snoc.
Qed.

Lemma getitem_last_raise (l : list A) (e : exn) :
  getitem l (-1) = Raise e <-> l = [] /\ e = IndexError.
Proof.
  split.
  - destruct (snoc_cases l) as [-> | [l' [y ->]]].
    + rewrite getitem_last_nil. intros [= <-]. now split.
    + rewrite getitem_last_snoc. discriminate.
  - intros [-> ->]. reflexivity.
Qed.

Lemma getitem_last_no_exit (l : list A) (c : Z) :
  getitem l (-1) <> SysExit c.
Proof.
  destruct (snoc_cases l) as [-> | [l' [y ->]]].
  - rewrite getitem_last_nil. discriminate.
  - rewrite getitem_last_snoc. discriminate.
Qed.

Lemma filter_none (l : list A) :
  List.filter p l = [] <-> Forall (fun y => ~ P y) l.
Proof.
  induction l as [|y l IH]; simpl.
  - split; [constructor | reflexivity].
  - destruct (p y) eqn:E.
    + split; [discriminate|]. intros H. inversion H; subst.
      apply p_spec in E. contradiction.
    + rewrite IH. split; intros H.
      * constructor; [now apply p_false | exact H].
      * now inversion H.
Qed.

(** The last element of the filtered list is the last element of the
    list that passes the test. *)
Lemma filter_last (l : list A) (x : A) :
  (exists l', List.filter p l = (l' ++ [x])%list) <-> Last_with P l x.
Proof.
  unfold Last_with. split.
  - intros [l' E]. revert l' E. induction l as [|y l IH]; intros l' E.
    + simpl in E. destruct l'; discriminate.
    + simpl in E. destruct (p y) eqn:Ey.
      * destruct (List.filter p l) as [|z fl] eqn:Efl.
        -- destruct l' as [|? [|? ?]]; try discriminate.
           injection E as ->. exists [], l. split; [reflexivity|].
           split; [now apply p_spec | now apply filter_none].
        -- destruct l' as [|u l'']; [discriminate|].
           injection E as -> E.
           destruct (IH l'' E) as [b [a [-> [Hx Ha]]]].
           exists (u :: b), a. now repeat split.
      * destruct (IH l' E) as [b [a [-> [Hx Ha]]]].
        exists (y :: b), a. now repeat split.
  - intros [b [a [-> [Hx Ha]]]]. exists (List.filter p b).
    rewrite filter_app. simpl.
    apply p_spec in Hx. rewrite Hx.
    apply filter_none in Ha. now rewrite Ha.
Qed.

Lemma Last_with_unique (l : list A) (x y : A) :
  Last_with P l x -> Last_with P l y -> x = y.
Proof.
  intros Hx Hy. apply filter_last in Hx, Hy.
  destruct Hx as [lx Ex], Hy as [ly Ey]. rewrite Ex in Ey.
  apply app_inj_tail in Ey. tauto.
Qed.

Lemma Last_with_exists (l : list A) :
  Exists P l -> exists x, Last_with P l x.
Proof.
  intros H.
  destruct (snoc_cases (List.filter p l)) as [E | [l' [x E]]].
  - apply filter_none in E. apply Exists_exists in H.
    destruct H as [y [Hin Hy]]. rewrite Forall_forall in E.
    now apply E in Hin.
  - exists x. apply filter_last. now exists l'.
Qed.

End LastWith.

(** ** Name derivation *)

Lemma chapter_of_ret (w : world) (chapter : string) :
  chapter_of w = Ret chapter <-> Derived_name w chapter.
Proof.
  unfold chapter_of, Derived_name, segments.
  rewrite getitem_last_ret.
  apply filter_last, names_chapter_spec.
Qed.

Lemma chapter_of_raise (w : world) (e : exn) :
  chapter_of w = Raise e <->
  Forall (fun seg => ~ Names_chapter seg) (segments w) /\ e = IndexError.
Proof.
  unfold chapter_of, segments. rewrite getitem_last_raise.
  now rewrite (filter_none _ _ _ names_chapter_spec).
Qed.

Lemma chapter_of_cases (w : world) :
  (exists chapter, chapter_of w = Ret chapter) \/
  chapter_of w = Raise IndexError.
Proof.
  destruct (chapter_of w) as [c | e | c] eqn:E.
  - left. now exists c.
  - right. apply chapter_of_raise in E. now destruct E as [_ ->].
  - now apply getitem_last_no_exit in E.
Qed.

(** ** The pattern [*.dfy] *)

Lemma glob_star_dfy (w : world) :
  glob.glob "*.dfy" w = (Ret (dfy_files (dir w)), w).
Proof. reflexivity. Qed.

Lemma fnmatch_literal (lit name : string) :
  (forall c, In c (list_ascii_of_string lit) -> c <> "*"%char /\ c <> "?"%char) ->
  fnmatch.fnmatch lit name = true <-> name = lit.
Proof.
  revert name; induction lit as [|p lit IH]; intros name Hlit.
  - destruct name; simpl; split; congruence.
  - assert (Hp : p <> "*"%char /\ p <> "?"%char) by (apply Hlit; now left).
    destruct Hp as [Hs Hq].
    assert (Hlit' : forall c, In c (list_ascii_of_string lit) ->
                              c <> "*"%char /\ c <> "?"%char)
      by (intros c Hc; apply Hlit; now right).
    cbn [fnmatch.fnmatch].
    apply Ascii.eqb_neq in Hs, Hq. rewrite Hs, Hq. simpl orb.
    destruct name as [|c name]; [split; discriminate|].
    rewrite andb_true_iff, Ascii.eqb_eq, (IH name Hlit'). split.
    + now intros [-> ->].
    + intros [= -> ->]. now split.
Qed.

(** A star followed by a literal matches exactly the names that end in
    the literal. *)
Lemma fnmatch_star_literal (lit name : string) :
  (forall c, In c (list_ascii_of_string lit) -> c <> "*"%char /\ c <> "?"%char) ->
  fnmatch.fnmatch (String "*" lit) name = true <-> Ends_with lit name.
Proof.
  intros Hlit. unfold Ends_with. cbn [fnmatch.fnmatch].
  rewrite Ascii.eqb_refl.
  induction name as [|c name IH].
  - rewrite orb_false_r, (fnmatch_literal _ _ Hlit). split.
    + intros ->. now exists "".
    + intros [[|x stem] E]; simpl in E; [exact E | discriminate].
  - rewrite orb_true_iff, (fnmatch_literal _ _ Hlit), IH. split.
    + intros [E | [stem E]].
      * now exists "".
      * exists (String c stem). simpl. now rewrite E.
    + intros [[|x stem] E]; simpl in E.
      * now left.
      * right. injection E as _ E. now exists stem.
Qed.

Lemma fnmatch_star_dfy (name : string) :
  fnmatch.fnmatch "*.dfy" name = true <-> Ends_with ".dfy" name.
Proof.
  apply fnmatch_star_literal. simpl.
  intros c [<- | [<- | [<- | [<- | []]]]]; split; discriminate.
Qed.

Lemma ishidden_spec (name : string) :
  glob._ishidden name = true <-> exists rest, name = String "." rest.
Proof.
  destruct name as [|c name]; simpl.
  - split; [discriminate | intros [r E]; discriminate].
  - rewrite Ascii.eqb_eq. split.
    + intros ->. now exists name.
    + now intros [r [= -> _]].
Qed.

Lemma in_dfy_files (names : list string) (f : string) :
  In f (dfy_files names) <-> In f names /\ Matches_star_dfy f.
Proof.
  unfold dfy_files, fnmatch.filter, Matches_star_dfy.
  rewrite !filter_In, fnmatch_star_dfy, negb_true_iff.
  assert (H : glob._ishidden f = false <-> forall rest, f <> String "." rest).
  { split.
    - intros E rest ->. simpl in E. discriminate.
    - intros H. destruct (glob._ishidden f) eqn:E; [|reflexivity].
      apply ishidden_spec in E. destruct E as [r E]. now apply H in E. }
  rewrite H. tauto.
Qed.

Lemma dfy_files_NoDup (names : list string) :
  NoDup names -> NoDup (dfy_files names).
Proof.
  intros H. unfold dfy_files, fnmatch.filter.
  now apply NoDup_filter, NoDup_filter.
Qed.

(** An archive name never looks like a Dafny file. *)
Lemma tgz_not_dfy (chapter : string) : ~ Ends_with ".dfy" (chapter ++ ".tgz").
Proof.
  intros [stem E]. apply append_inv_suffix_length in E; [|reflexivity].
  destruct E as [_ E]. discriminate.
Qed.

(** ** The two paths through the script *)

Lemma main_success (exec : program) (w : world) (chapter : string) :
  chapter_of w = Ret chapter ->
  main exec w =
    (0%Z,
     World (cwd w) (fst (exec (command w chapter) (dir w)))
       (log w ++ [Spawn (command w chapter)
                    (snd (exec (command w chapter) (dir w)));
                  Write Stdout (success_message chapter)])%list).
Proof.
  unfold chapter_of. intros E.
  unfold main, run, script, bind, try_except, eval, os.getcwd.
  rewrite E. rewrite glob_star_dfy.
  unfold subprocess.call, sys.stdout_write, emit. simpl dir. simpl cwd.
  fold (command w chapter).
  destruct (exec (command w chapter) (dir w)) as [d' st]. simpl.
  now rewrite <- app_assoc.
Qed.

Lemma main_failure (exec : program) (w : world) :
  chapter_of w = Raise IndexError ->
  main exec w =
    ((-1)%Z,
     World (cwd w) (dir w) (log w ++ [Write Stderr failure_message])%list).
Proof.
  unfold chapter_of. intros E.
  unfold main, run, script, bind, try_except, eval, os.getcwd.
  rewrite E. reflexivity.
Qed.

Lemma skipn_app_length {A : Type} (l l' : list A) :
  skipn (length l) (l ++ l')%list = l'.
Proof. induction l as [|x l IH]; simpl; [reflexivity | exact IH]. Qed.

Lemma events_success (exec : program) (w : world) (chapter : string) :
  Derived_name w chapter ->
  events exec w =
    [Spawn (command w chapter) (snd (exec (command w chapter) (dir w)));
     Write Stdout (success_message chapter)].
Proof.
  intros H. apply chapter_of_ret in H. unfold events.
  rewrite (main_success exec w chapter H). simpl. apply skipn_app_length.
Qed.

Lemma events_failure (exec : program) (w : world) :
  Forall (fun seg => ~ Names_chapter seg) (segments w) ->
  events exec w = [Write Stderr failure_message].
Proof.
  intros H. unfold events. rewrite main_failure.
  - simpl. apply skipn_app_length.
  - apply chapter_of_raise. now split.
Qed.

(** A run only ever appends to the log. *)
Lemma log_extends (exec : program) (w : world) :
  log (snd (main exec w)) = (log w ++ events exec w)%list.
Proof.
  unfold events.
  destruct (chapter_of_cases w) as [[c E] | E].
  - rewrite (main_success exec w c E). simpl. now rewrite skipn_app_length.
  - rewrite (main_failure exec w E). simpl. now rewrite skipn_app_length.
Qed.

(** ** Splitting, joining and normalizing *)

Lemma split_not_nil (sep : ascii) (s : string) : split sep s <> [].
Proof.
  destruct s as [|c s]; simpl; [discriminate|].
  destruct (Ascii.eqb c sep); [discriminate|].
  destruct (split sep s); discriminate.
Qed.

Lemma split_free (sep : ascii) (s : string) :
  Free_of sep s -> split sep s = [s].
Proof.
  unfold Free_of. induction s as [|c s IH]; simpl; intros H; [reflexivity|].
  destruct (Ascii.eqb c sep) eqn:E.
  - apply Ascii.eqb_eq in E. subst. tauto.
  - rewrite IH by tauto. reflexivity.
Qed.

Lemma split_app_sep (sep : ascii) (x rest : string) :
  Free_of sep x ->
  split sep (x ++ String sep rest) = x :: split sep rest.
Proof.
  unfold Free_of. induction x as [|c x IH]; simpl; intros H.
  - now rewrite Ascii.eqb_refl.
  - destruct (Ascii.eqb c sep) eqn:E.
    + apply Ascii.eqb_eq in E. subst. tauto.
    + rewrite IH by tauto. reflexivity.
Qed.

Lemma split_segments_free (sep : ascii) (s : string) :
  Forall (Free_of sep) (split sep s).
Proof.
  induction s as [|c s IH]; simpl.
  - repeat constructor. intros [].
  - destruct (Ascii.eqb c sep) eqn:E.
    + constructor; [intros [] | exact IH].
    + destruct (split sep s) as [|seg rest] eqn:Es.
      * now apply split_not_nil in Es.
      * inversion IH; subst. constructor; [|assumption].
        unfold Free_of in *. simpl. intros [-> | H]; [|tauto].
        now rewrite Ascii.eqb_refl in E.
Qed.

(** Joining undoes splitting ... *)
Lemma join_split (sep : ascii) (s : string) :
  join (String sep "") (split sep s) = s.
Proof.
  induction s as [|c s IH]; simpl; [reflexivity|].
  destruct (Ascii.eqb c sep) eqn:E.
  - apply Ascii.eqb_eq in E. subst c.
    pose proof (split_not_nil sep s) as N.
    destruct (split sep s) as [|seg rest]; [contradiction|].
    change (join (String sep "") ("" :: seg :: rest))
      with (String sep (join (String sep "") (seg :: rest))).
    now rewrite IH.
  - destruct (split sep s) as [|seg rest] eqn:Es.
    + now apply split_not_nil in Es.
    + destruct rest as [|r rest].
      * simpl in *. now rewrite IH.
      * change (join (String sep "") (String c seg :: r :: rest))
          with (String c (join (String sep "") (seg :: r :: rest))).
        now rewrite IH.
Qed.

(** ... and splitting undoes joining of separator-free segments. *)
Lemma split_join (sep : ascii) (l : list string) :
  l <> [] -> Forall (Free_of sep) l ->
  split sep (join (String sep "") l) = l.
Proof.
  induction l as [|x l IH]; intros N F; [contradiction|].
  inversion F as [|? ? Fx Fl]; subst.
  destruct l as [|y l].
  - simpl. now apply split_free.
  - cbn [join]. change (String sep "" ++ ?r) with (String sep r).
    rewrite split_app_sep by exact Fx. f_equal. apply IH; [discriminate | exact Fl].
Qed.

Lemma split_str_mul_slash (n : nat) (s : string) :
  split "/" (str_mul "/" n ++ s) = (repeat "" n ++ split "/" s)%list.
Proof.
  induction n as [|n IH]; [reflexivity|].
  change (str_mul "/" (S n) ++ s) with (String "/" (str_mul "/" n ++ s)).
  cbn [split repeat app]. rewrite Ascii.eqb_refl. now rewrite IH.
Qed.

Lemma norm_step_component (n : nat) (acc : list string) (c : string) :
  Component c -> posixpath.norm_step n acc c = (acc ++ [c])%list.
Proof.
  intros (H0 & H1 & H2 & _). unfold posixpath.norm_step.
  apply String.eqb_neq in H0, H1, H2. now rewrite H0, H1, H2.
Qed.

Lemma fold_norm_step_components (n : nat) (comps acc : list string) :
  Forall Component comps ->
  fold_left (posixpath.norm_step n) comps acc = (acc ++ comps)%list.
Proof.
  revert acc; induction comps as [|c comps IH]; intros acc F; simpl.
  - now rewrite app_nil_r.
  - inversion F; subst. rewrite norm_step_component by assumption.
    rewrite IH by assumption. now rewrite <- app_assoc.
Qed.

Lemma Component_free (comps : list string) :
  Forall Component comps -> Forall (Free_of "/") comps.
Proof. apply Forall_impl. now intros c (_ & _ & _ & H). Qed.

Lemma split_abspath (comps : list string) :
  Forall Component comps ->
  split "/" (abspath comps) =
    "" :: match comps with [] => [""] | _ :: _ => comps end.
Proof.
  intros F. unfold abspath. change ("/" ++ ?r) with (String "/" r).
  cbn [split]. rewrite Ascii.eqb_refl. f_equal.
  destruct comps as [|c comps]; [reflexivity|].
  change "/" with (String "/"%char ""). apply split_join; [discriminate|].
  now apply Component_free.
Qed.

Lemma abspath_one_slash (comps : list string) :
  Forall Component comps -> startswith (abspath comps) "//" = false.
Proof.
  intros F. destruct comps as [|c comps]; [reflexivity|].
  inversion F as [|? ? (H0 & _ & _ & Hf) _]; subst.
  destruct c as [|a c]; [contradiction|].
  assert (X : exists r, join "/" (String a c :: comps) = String a r)
    by (destruct comps; cbn [join]; eexists; reflexivity).
  destruct X as [r X]. unfold abspath. rewrite X.
  change ("/" ++ String a r) with (String "/" (String a r)).
  cbn [startswith]. destruct (Ascii.eqb "/" a) eqn:E.
  - apply Ascii.eqb_eq in E. subst a. exfalso. apply Hf. now left.
  - now rewrite andb_false_r.
Qed.

(** Normalization leaves such a path as it is. *)
Lemma normpath_abspath (comps : list string) :
  Forall Component comps ->
  posixpath.normpath (abspath comps) = abspath comps.
Proof.
  intros F. unfold posixpath.normpath.
  rewrite (abspath_one_slash comps F). simpl andb.
  replace (String.eqb (abspath comps) "") with false by reflexivity.
  replace (startswith (abspath comps) "/") with true by reflexivity.
  rewrite (split_abspath comps F). cbn [fold_left].
  replace (posixpath.norm_step 1 [] "") with (@nil string) by reflexivity.
  assert (E : fold_left (posixpath.norm_step 1)
                match comps with [] => [""] | _ :: _ => comps end [] = comps).
  { destruct comps as [|c comps]; [reflexivity|].
    now rewrite fold_norm_step_components. }
  rewrite E. reflexivity.
Qed.

(** So the segments the script looks at are the directory names on the
    way from the root to the working directory (after the empty segment
    in front of the leading slash). *)
Lemma segments_abspath (comps : list string) (d : list string) (l : list event) :
  Forall Component comps -> comps <> [] ->
  segments (World (abspath comps) d l) = "" :: comps.
Proof.
  intros F N. unfold segments, os.sep. simpl cwd.
  rewrite (normpath_abspath comps F), (split_abspath comps F).
  destruct comps; [contradiction | reflexivity].
Qed.

(** Seen from the directory names: the derived name is the last
    directory on the way to the working directory that names a chapter. *)
Lemma derived_from_components
    (comps : list string) (d : list string) (l : list event) (chapter : string) :
  Forall Component comps ->
  Last_with Names_chapter comps chapter ->
  chapter_of (World (abspath comps) d l) = Ret chapter.
Proof.
  intros F [b [a [E [N Fa]]]]. apply chapter_of_ret. unfold Derived_name.
  rewrite (segments_abspath comps d l F) by (rewrite E; now destruct b).
  exists ("" :: b), a. rewrite E. now repeat split.
Qed.

(** ** Characters of the derived name *)

Lemma chars_append (a b : string) :
  list_ascii_of_string (a ++ b) =
    (list_ascii_of_string a ++ list_ascii_of_string b)%list.
Proof. induction a as [|x a IH]; simpl; [reflexivity | now rewrite IH]. Qed.

Lemma split_chars (sep : ascii) (s seg : string) (c : ascii) :
  In seg (split sep s) -> In c (list_ascii_of_string seg) ->
  In c (list_ascii_of_string s).
Proof.
  revert seg; induction s as [|x s IH]; simpl; intros seg Hs Hc.
  - destruct Hs as [<- | []]. exact Hc.
  - destruct (Ascii.eqb x sep).
    + destruct Hs as [<- | Hs]; [destruct Hc | right; eauto].
    + destruct (split sep s) as [|seg0 rest] eqn:Es.
      * now apply split_not_nil in Es.
      * destruct Hs as [<- | Hs].
        -- destruct Hc as [-> | Hc]; [now left | right].
           apply (IH seg0); [now left | exact Hc].
        -- right. apply (IH seg); [now right | exact Hc].
Qed.

Lemma join_chars (sep : string) (l : list string) (c : ascii) :
  In c (list_ascii_of_string (join sep l)) ->
  In c (list_ascii_of_string sep) \/
  exists x, In x l /\ In c (list_ascii_of_string x).
Proof.
  induction l as [|x l IH]; [intros []|].
  destruct l as [|y l].
  - intros H. right. exists x. split; [now left | exact H].
  - change (join sep (x :: y :: l)) with (x ++ sep ++ join sep (y :: l)).
    rewrite !chars_append, !in_app_iff. intros [H | [H | H]].
    + right. exists x. split; [now left | exact H].
    + now left.
    + destruct (IH H) as [H' | [z [Hz Hc]]]; [now left | right].
      exists z. split; [now right | exact Hc].
Qed.

Lemma In_removelast {A : Type} (l : list A) (x : A) :
  In x (removelast l) -> In x l.
Proof.
  induction l as [|y l IH]; [intros []|]. simpl.
  destruct l as [|z l]; [intros [] |].
  intros [-> | H]; [now left | right; now apply IH].
Qed.

Lemma norm_step_incl (n : nat) (acc : list string) (comp x : string) :
  In x (posixpath.norm_step n acc comp) -> In x acc \/ x = comp.
Proof.
  unfold posixpath.norm_step.
  destruct (String.eqb comp "" || String.eqb comp "."); [now left|].
  match goal with |- context [if ?b then _ else _] => destruct b end.
  - rewrite in_app_iff. simpl. intuition.
  - intros H. left. now apply In_removelast.
Qed.

Lemma fold_norm_step_incl (n : nat) (comps acc : list string) (x : string) :
  In x (fold_left (posixpath.norm_step n) comps acc) ->
  In x acc \/ In x comps.
Proof.
  revert acc; induction comps as [|c comps IH]; intros acc H; simpl in *.
  - now left.
  - destruct (IH _ H) as [H' | H']; [|now right; right].
    destruct (norm_step_incl _ _ _ _ H') as [H'' | ->];
      [now left | right; now left].
Qed.

(** Normalizing a path introduces no character but the slash and the
    dot. *)
Lemma normpath_chars (path : string) (c : ascii) :
  In c (list_ascii_of_string (posixpath.normpath path)) ->
  c = "/"%char \/ c = "."%char \/ In c (list_ascii_of_string path).
Proof.
  unfold posixpath.normpath. cbv zeta.
  destruct (String.eqb path ""); [intros [<- | []]; auto|].
  set (n := if startswith path "/" then _ else 0).
  match goal with |- context [if String.eqb ?b "" then _ else _] =>
    destruct (String.eqb b "") end;
    [intros [<- | []]; auto|].
  rewrite chars_append, in_app_iff. intros [H | H].
  - left. clear -H. induction n as [|n IH]; [destruct H|].
    simpl in H. destruct H as [<- | H]; [reflexivity | now apply IH].
  - apply join_chars in H. destruct H as [[<- | []] | [x [Hx Hc]]];
      [now left|].
    apply fold_norm_step_incl in Hx. destruct Hx as [[] | Hx].
    right; right. exact (split_chars _ _ _ _ Hx Hc).
Qed.

Lemma derived_name_chars (w : world) (chapter : string) (c : ascii) :
  Derived_name w chapter -> In c (list_ascii_of_string chapter) ->
  c = "."%char \/ In c (list_ascii_of_string (cwd w)).
Proof.
  intros [b [a [E _]]] Hc.
  assert (Hin : In chapter (segments w)) by (rewrite E; apply in_elt).
  pose proof (split_segments_free os.sep (posixpath.normpath (cwd w))) as F.
  rewrite Forall_forall in F. specialize (F _ Hin).
  unfold segments in Hin.
  destruct (normpath_chars _ _ (split_chars _ _ _ _ Hin Hc)) as [-> | H];
    [contradiction | exact H].
Qed.

Lemma count_char_append (c : ascii) (a b : string) :
  count_char c (a ++ b) = count_char c a + count_char c b.
Proof. induction a as [|x a IH]; simpl; [reflexivity | rewrite IH; lia]. Qed.

Lemma count_char_free (c : ascii) (s : string) :
  Free_of c s -> count_char c s = 0.
Proof.
  unfold Free_of. induction s as [|x s IH]; simpl; intros H; [reflexivity|].
  destruct (Ascii.eqb x c) eqn:E.
  - apply Ascii.eqb_eq in E. tauto.
  - rewrite IH by tauto. reflexivity.
Qed.

(** When the working directory has no line feed in its name, the text on
    standard output is one line: its only line feed is the one that ends
    it. *)
Lemma upload_line_is_one_line (w : world) (chapter : string) :
  Free_of (ascii_of_nat 10) (cwd w) ->
  Derived_name w chapter ->
  count_char (ascii_of_nat 10) (success_message chapter) = 1 /\
  exists line, success_message chapter = line ++ nl /\
               Free_of (ascii_of_nat 10) line.
Proof.
  intros Hw H.
  assert (Hc : Free_of (ascii_of_nat 10) chapter).
  { intros Hc. destruct (derived_name_chars w chapter _ H Hc) as [E | E];
      [discriminate | contradiction]. }
  split.
  - unfold success_message. rewrite !count_char_append.
    rewrite (count_char_free _ _ Hc). reflexivity.
  - exists ("Please upload " ++ (chapter ++ ".tgz") ++ " to the submission site.").
    split.
    + unfold success_message. now rewrite !append_assoc.
    + unfold Free_of. rewrite !chars_append, !in_app_iff.
      intros [X | [[X | X] | X]].
      * simpl in X. intuition discriminate.
      * contradiction.
      * simpl in X. intuition discriminate.
      * simpl in X. intuition discriminate.
Qed.

(** ** Normalizing an absolute path *)

Lemma path_of_join (piece : string) (rest : list string) :
  path_of (piece :: rest) = String "/" (join "/" (piece :: rest)).
Proof.
  revert piece; induction rest as [|y rest IH]; intros piece.
  - simpl. now rewrite append_nil_r.
  - change (path_of (piece :: y :: rest))
      with (String "/" (piece ++ path_of (y :: rest))).
    rewrite IH. reflexivity.
Qed.

Lemma split_path_of (pieces : list string) :
  pieces <> [] -> Forall (Free_of "/") pieces ->
  split "/" (path_of pieces) = "" :: pieces.
Proof.
  intros N F. destruct pieces as [|x rest]; [contradiction|].
  rewrite path_of_join. cbn [split]. rewrite Ascii.eqb_refl. f_equal.
  change "/" with (String "/"%char ""). now apply split_join.
Qed.

Lemma Resolves_from_incl (above pieces names : list string) (x : string) :
  Resolves_from above pieces names ->
  In x names -> In x above \/ In x pieces.
Proof.
  induction 1 as [above | above piece rest names _ _ IH
                 | above rest names _ IH
                 | above piece rest names _ _ _ _ IH]; intros Hx.
  - now left.
  - destruct (IH Hx) as [H | H]; [now left | right; now right].
  - destruct (IH Hx) as [H | H]; [left; now apply In_removelast | right; now right].
  - destruct (IH Hx) as [H | H]; [|right; now right].
    apply in_app_iff in H. destruct H as [H | [<- | []]];
      [now left | right; now left].
Qed.

(** The pieces of any path resolve to some list of names. *)
Lemma Resolves_from_total (pieces above : list string) :
  exists names, Resolves_from above pieces names.
Proof.
  revert above; induction pieces as [|piece rest IH]; intros above.
  - exists above. constructor.
  - destruct (String.eqb_spec piece "") as [E0 | N0].
    + destruct (IH above) as [names H]. exists names.
      apply Resolves_stay; [now left | exact H].
    + destruct (String.eqb_spec piece ".") as [E1 | N1].
      * destruct (IH above) as [names H]. exists names.
        apply Resolves_stay; [now right | exact H].
      * destruct (String.eqb_spec piece "..") as [E2 | N2].
        -- subst piece. destruct (IH (removelast above)) as [names H].
           exists names. now apply Resolves_up.
        -- destruct (IH (above ++ [piece])%list) as [names H].
           exists names. now apply Resolves_down.
Qed.

(** Every absolute path is the path of its slash-free pieces, and those
    resolve to some names: the two descriptions below cover every
    working directory the operating system can report. *)
Lemma path_of_split (rest : string) :
  path_of (split "/" rest) = String "/" rest /\
  Forall (Free_of "/") (split "/" rest) /\
  exists names, Resolves_from [] (split "/" rest) names.
Proof.
  split; [|split; [apply split_segments_free | apply Resolves_from_total]].
  pose proof (split_not_nil "/" rest) as N.
  pose proof (join_split "/" rest) as J.
  destruct (split "/" rest) as [|x l]; [contradiction|].
  rewrite path_of_join. now rewrite <- J.
Qed.

(** The loop of [normpath] over the pieces of an absolute path computes
    the names the pieces resolve to. *)
Lemma fold_norm_step_resolves (n : nat) (above pieces names : list string) :
  n <> 0 ->
  Resolves_from above pieces names ->
  Forall (fun x => x <> "..") above ->
  fold_left (posixpath.norm_step n) pieces above = names.
Proof.
  intros Hn. induction 1 as [above | above piece rest names Hp _ IH
                            | above rest names _ IH
                            | above piece rest names N0 N1 N2 _ IH];
    intros Fa; cbn [fold_left].
  - reflexivity.
  - replace (posixpath.norm_step n above piece) with above; [now apply IH|].
    unfold posixpath.norm_step. now destruct Hp as [-> | ->].
  - replace (posixpath.norm_step n above "..") with (removelast above).
    + apply IH. apply Forall_forall. intros x Hx.
      rewrite Forall_forall in Fa. now apply Fa, In_removelast.
    + unfold posixpath.norm_step.
      replace (String.eqb ".." "" || String.eqb ".." ".") with false
        by reflexivity.
      replace (String.eqb ".." "..") with true by reflexivity.
      apply Nat.eqb_neq in Hn. rewrite Hn. cbn [negb andb orb].
      destruct above as [|a above']; [reflexivity|].
      cbn [length Nat.eqb negb andb].
      assert (L : last (a :: above') "" <> "..").
      { rewrite Forall_forall in Fa. apply Fa.
        rewrite (app_removelast_last "" (l := a :: above')) at 2
          by discriminate.
        apply in_elt. }
      apply String.eqb_neq in L. now rewrite L.
  - replace (posixpath.norm_step n above piece) with (above ++ [piece])%list.
    + apply IH. apply Forall_app. split; [exact Fa | now constructor].
    + unfold posixpath.norm_step.
      apply String.eqb_neq in N0, N1, N2. now rewrite N0, N1, N2.
Qed.

(** Normalizing the path of some pieces gives one or two slashes and
    then the names the pieces resolve to, a slash between them. *)
Lemma normpath_path_of (pieces names : list string) :
  pieces <> [] ->
  Forall (Free_of "/") pieces ->
  Resolves_from [] pieces names ->
  exists n, (n = 1 \/ n = 2) /\
    posixpath.normpath (path_of pieces) = str_mul "/" n ++ join "/" names.
Proof.
  intros N F R. unfold posixpath.normpath. cbv zeta.
  rewrite (split_path_of pieces N F). cbn [fold_left].
  destruct pieces as [|x rest]; [contradiction|].
  rewrite path_of_join.
  set (r := join "/" (x :: rest)).
  replace (String.eqb (String "/" r) "") with false by reflexivity.
  replace (startswith (String "/" r) "/") with true by reflexivity.
  destruct (startswith (String "/" r) "//"
            && negb (startswith (String "/" r) "///")).
  - exists 2. split; [now right|].
    replace (posixpath.norm_step 2 [] "") with (@nil string) by reflexivity.
    rewrite (fold_norm_step_resolves 2 [] (x :: rest) names
               ltac:(discriminate) R (Forall_nil _)).
    reflexivity.
  - exists 1. split; [now left|].
    replace (posixpath.norm_step 1 [] "") with (@nil string) by reflexivity.
    rewrite (fold_norm_step_resolves 1 [] (x :: rest) names
               ltac:(discriminate) R (Forall_nil _)).
    reflexivity.
Qed.

Lemma filter_repeat_empty (n : nat) (l : list string) :
  List.filter names_chapter (repeat "" n ++ l)%list = List.filter names_chapter l.
Proof.
  induction n as [|n IH]; [reflexivity|].
  cbn [repeat app List.filter].
  replace (names_chapter "") with false by reflexivity. exact IH.
Qed.

(** The segments the script keeps are the resolved names it keeps. *)
Lemma filter_segments_path_of (pieces names : list string) :
  pieces <> [] ->
  Forall (Free_of "/") pieces ->
  Resolves_from [] pieces names ->
  List.filter names_chapter
    (split os.sep (posixpath.normpath (path_of pieces))) =
  List.filter names_chapter names.
Proof.
  intros N F R.
  destruct (normpath_path_of pieces names N F R) as [n [_ E]].
  rewrite E. unfold os.sep. rewrite split_str_mul_slash, filter_repeat_empty.
  destruct names as [|c names'] eqn:En; [reflexivity|]. rewrite <- En in *.
  change "/" with (String "/"%char ""). rewrite split_join; [reflexivity| |].
  - rewrite En. discriminate.
  - apply Forall_forall. intros y Hy.
    destruct (Resolves_from_incl _ _ _ y R Hy) as [[] | Hp].
    rewrite Forall_forall in F. now apply F.
Qed.

(** ** Sample runs *)

Example run_chapter3 :
  main tar_ok w_chapter3 =
    (0%Z,
     World "/home/user/course/chapter3" ["a.dfy"; "b.dfy"; "chapter3.tgz"]
       [Spawn ["tar"; "-czf"; "chapter3.tgz"; "a.dfy"; "b.dfy"] 0;
        Write Stdout ("Please upload chapter3.tgz to the submission site." ++ nl)]).
Proof. reflexivity. Qed.

Example run_lab3 :
  main tar_ok w_lab3 =
    ((-1)%Z,
     World "/home/user/course/lab3" ["a.dfy"]
       [Write Stderr ("Cannot determine chapter name from current path." ++ nl)]).
Proof. reflexivity. Qed.

Example run_nested :
  fst (main tar_ok (World "/srv/project7/chapter3/build" [] [])) = 0%Z /\
  chapter_of (World "/srv/project7/chapter3/build" [] []) = Ret "chapter3".
Proof. split; reflexivity. Qed.

Example run_projector :
  chapter_of (World "/srv/projector" [] []) = Ret "projector".
Proof. reflexivity. Qed.

Lemma derived_chapter3 (d : list string) (l : list event) :
  Derived_name (World "/home/user/course/chapter3" d l) "chapter3".
Proof. apply chapter_of_ret. reflexivity. Defined.

Lemma no_name_lab3 :
  Forall (fun seg => ~ Names_chapter seg) (segments w_lab3).
Proof. apply (proj1 (chapter_of_raise w_lab3 IndexError)). reflexivity. Defined.

(** ** Properties of the script *)

Ltac free_of_slash :=
  repeat constructor; unfold Free_of; simpl; intuition discriminate.

Ltac resolve_pieces :=
  repeat first
    [ apply Resolves_end
    | apply Resolves_up
    | apply Resolves_stay; [(left; reflexivity) || (right; reflexivity) |]
    | apply Resolves_down; [discriminate | discriminate | discriminate |] ].

(** C1.  Write the working directory, an absolute path, as its
    slash-free pieces, and let [names] be the directory names the pieces
    resolve to: the segments of the normalized path.  When one of the
    names contains [chapter] or [project], the script derives the last
    such name (there is exactly one; it is also the last such element of
    what the script's own splitting of the normalized path returns), and
    the archive named on the command line is that name followed by
    [.tgz]. *)
Theorem derived_name_is_last_matching_segment
    (exec : program) (w : world) (pieces names : list string) :
  cwd w = path_of pieces ->
  Forall (Free_of "/") pieces ->
  Resolves_from [] pieces names ->
  Exists Names_chapter names ->
  exists chapter,
    Last_with Names_chapter names chapter /\
    (forall other, Last_with Names_chapter names other -> other = chapter) /\
    Last_with Names_chapter
      (split os.sep (posixpath.normpath (cwd w))) chapter /\
    chapter_of w = Ret chapter /\
    exists argv status,
      events exec w =
        [Spawn argv status;
         Write Stdout
           ("Please upload " ++ (chapter ++ ".tgz")
              ++ " to the submission site." ++ String "010" "")] /\
      firstn 3 argv = ["tar"; "-czf"; chapter ++ ".tgz"].
Proof.
  intros Hcwd F R H.
  assert (N : pieces <> []).
  { intros ->. inversion R; subst. inversion H. }
  destruct (Last_with_exists _ _ _ names_chapter_spec _ H) as [chapter L].
  assert (E : chapter_of w = Ret chapter).
  { unfold chapter_of. rewrite Hcwd, (filter_segments_path_of _ _ N F R).
    apply getitem_last_ret. now apply (filter_last _ _ _ names_chapter_spec). }
  exists chapter. split; [exact L|]. split.
  - intros other L'.
    exact (Last_with_unique _ _ _ names_chapter_spec _ _ _ L' L).
  - split; [now apply chapter_of_ret|]. split; [exact E|].
    exists (command w chapter), (snd (exec (command w chapter) (dir w))).
    split; [|reflexivity].
    now rewrite (events_success exec w chapter (proj1 (chapter_of_ret _ _) E)).
Qed.

Lemma derived_name_is_last_matching_segment_witness :
  (cwd w_chapter3 = path_of ["home"; "user"; "course"; "chapter3"] /\
   Forall (Free_of "/") ["home"; "user"; "course"; "chapter3"] /\
   Resolves_from [] ["home"; "user"; "course"; "chapter3"]
     ["home"; "user"; "course"; "chapter3"] /\
   Exists Names_chapter ["home"; "user"; "course"; "chapter3"] /\
   chapter_of w_chapter3 = Ret "chapter3" /\
   exists argv status,
     events tar_ok w_chapter3 =
       [Spawn argv status;
        Write Stdout
          ("Please upload " ++ ("chapter3" ++ ".tgz")
             ++ " to the submission site." ++ String "010" "")] /\
     firstn 3 argv = ["tar"; "-czf"; "chapter3" ++ ".tgz"]) /\
  (path_of ["srv"; "chapter3"; "chapter5"; ".."] = "/srv/chapter3/chapter5/.." /\
   Forall (Free_of "/") ["srv"; "chapter3"; "chapter5"; ".."] /\
   Resolves_from [] ["srv"; "chapter3"; "chapter5"; ".."] ["srv"; "chapter3"] /\
   Exists Names_chapter ["srv"; "chapter3"] /\
   chapter_of (World "/srv/chapter3/chapter5/.." ["a.dfy"] []) =
     Ret "chapter3").
Proof.
  assert (N3 : Names_chapter "chapter3")
    by (apply names_chapter_spec; reflexivity).
  split.
  - assert (F : Forall (Free_of "/") ["home"; "user"; "course"; "chapter3"])
      by free_of_slash.
    assert (R : Resolves_from [] ["home"; "user"; "course"; "chapter3"]
                  ["home"; "user"; "course"; "chapter3"])
      by resolve_pieces.
    assert (H : Exists Names_chapter ["home"; "user"; "course"; "chapter3"])
      by (apply Exists_exists; exists "chapter3"; split;
          [simpl; tauto | exact N3]).
    assert (L : Last_with Names_chapter
                  ["home"; "user"; "course"; "chapter3"] "chapter3")
      by (exists ["home"; "user"; "course"], []; split;
          [reflexivity | split; [exact N3 | constructor]]).
    destruct (derived_name_is_last_matching_segment tar_ok w_chapter3
                ["home"; "user"; "course"; "chapter3"]
                ["home"; "user"; "course"; "chapter3"]
                eq_refl F R H) as [chapter [_ [U [_ [E X]]]]].
    rewrite <- (U "chapter3" L) in E, X. now repeat split.
  - assert (F : Forall (Free_of "/") ["srv"; "chapter3"; "chapter5"; ".."])
      by free_of_slash.
    assert (R : Resolves_from [] ["srv"; "chapter3"; "chapter5"; ".."]
                  ["srv"; "chapter3"])
      by resolve_pieces.
    assert (H : Exists Names_chapter ["srv"; "chapter3"])
      by (apply Exists_exists; exists "chapter3"; split;
          [simpl; tauto | exact N3]).
    assert (L : Last_with Names_chapter ["srv"; "chapter3"] "chapter3")
      by (exists ["srv"], []; split;
          [reflexivity | split; [exact N3 | constructor]]).
    destruct (derived_name_is_last_matching_segment tar_ok
                (World "/srv/chapter3/chapter5/.." ["a.dfy"] [])
                ["srv"; "chapter3"; "chapter5"; ".."] ["srv"; "chapter3"]
                eq_refl F R H) as [chapter [_ [U [_ [E _]]]]].
    rewrite <- (U "chapter3" L) in E. now repeat split.
Defined.

(** C2.  When no segment of the normalized working directory contains
    [chapter] or [project], the only thing the run does is write the
    fixed diagnostic to standard error; it ends with code -1, which the
    parent process sees as 255; no child is started and the directory is
    left as it was, so no archive appears. *)
Theorem no_matching_segment_fails (exec : program) (w : world) :
  Forall (fun seg => ~ Names_chapter seg)
    (split os.sep (posixpath.normpath (cwd w))) ->
  events exec w =
    [Write Stderr ("Cannot determine chapter name from current path." ++ nl)] /\
  exit_code exec w = (-1)%Z /\
  wait_status (exit_code exec w) = 255%Z /\
  wait_status (exit_code exec w) <> 0%Z /\
  spawned (events exec w) = [] /\
  dir_after exec w = dir w.
Proof.
  intros H. rewrite (events_failure exec w H).
  assert (E : chapter_of w = Raise IndexError)
    by (apply chapter_of_raise; now split).
  unfold exit_code, dir_after. rewrite (main_failure exec w E). simpl.
  repeat split; try reflexivity. discriminate.
Qed.

Lemma no_matching_segment_fails_witness :
  Forall (fun seg => ~ Names_chapter seg)
    (split os.sep (posixpath.normpath (cwd w_lab3))) /\
  events tar_ok w_lab3 =
    [Write Stderr ("Cannot determine chapter name from current path." ++ nl)] /\
  exit_code tar_ok w_lab3 = (-1)%Z /\
  wait_status (exit_code tar_ok w_lab3) = 255%Z /\
  wait_status (exit_code tar_ok w_lab3) <> 0%Z /\
  spawned (events tar_ok w_lab3) = [] /\
  dir_after tar_ok w_lab3 = dir w_lab3.
Proof.
  split; [exact no_name_lab3|].
  exact (no_matching_segment_fails tar_ok w_lab3 no_name_lab3).
Defined.

(** C3.  In a run that derives a name, one child is started; its command
    line is [tar -czf NAME.tgz] followed by member names, and a name is
    among the members exactly when it is in the current directory and
    matches [*.dfy].  Only the names of the current directory itself are
    looked at, and a name is passed once if the directory lists it
    once. *)
Theorem archive_members_are_the_dfy_files
    (exec : program) (w : world) (chapter : string) :
  Derived_name w chapter ->
  exists argv status,
    spawned (events exec w) = [argv] /\
    In (Spawn argv status) (events exec w) /\
    firstn 3 argv = ["tar"; "-czf"; chapter ++ ".tgz"] /\
    (forall f, In f (members argv) <-> In f (dir w) /\ Matches_star_dfy f) /\
    (NoDup (dir w) -> NoDup (members argv)).
Proof.
  intros H.
  exists (command w chapter), (snd (exec (command w chapter) (dir w))).
  rewrite (events_success exec w chapter H).
  split; [reflexivity|]. split; [now left|]. split; [reflexivity|].
  split.
  - intros f. apply in_dfy_files.
  - apply dfy_files_NoDup.
Qed.

Lemma archive_members_are_the_dfy_files_witness :
  Derived_name w_hidden "chapter3" /\
  exists argv status,
    spawned (events tar_ok w_hidden) = [argv] /\
    In (Spawn argv status) (events tar_ok w_hidden) /\
    firstn 3 argv = ["tar"; "-czf"; "chapter3" ++ ".tgz"] /\
    (forall f,
        In f (members argv) <-> In f (dir w_hidden) /\ Matches_star_dfy f) /\
    (NoDup (dir w_hidden) -> NoDup (members argv)).
Proof.
  split; [apply derived_chapter3|].
  exact (archive_members_are_the_dfy_files tar_ok w_hidden "chapter3"
           (derived_chapter3 _ _)).
Defined.

Lemma archiver_In (name : string) (d : list string) (f : string) :
  In f (archiver name d) <-> In f d \/ f = name.
Proof.
  unfold archiver. destruct (existsb (String.eqb name) d) eqn:E.
  - split; [now left|]. intros [H | ->]; [exact H|].
    apply existsb_exists in E. destruct E as [x [Hx E]].
    apply String.eqb_eq in E. now subst.
  - rewrite in_app_iff. simpl. intuition congruence.
Qed.

Lemma tar_ok_touches_only_archive : Touches_only_archive tar_ok.
Proof.
  intros argv d f N. unfold tar_ok.
  destruct (skipn 3 argv); simpl; [tauto|].
  rewrite archiver_In. intuition congruence.
Defined.

(** C4, as amended.  When a name is derived and no name of the
    directory matches [*.dfy], the archiver is run all the same, with
    the archive name and no member after it; the run prints the upload
    line and ends with code 0 whatever the archiver does.  The directory
    afterwards and the status on record are what the archiver made of
    that command line: the script neither creates the archive itself nor
    looks whether there is one. *)
Theorem empty_member_list_still_passed
    (exec : program) (w : world) (chapter : string) :
  Derived_name w chapter ->
  (forall f, In f (dir w) -> ~ Matches_star_dfy f) ->
  exists status,
    events exec w =
      [Spawn ["tar"; "-czf"; chapter ++ ".tgz"] status;
       Write Stdout
         ("Please upload " ++ (chapter ++ ".tgz")
            ++ " to the submission site." ++ String "010" "")] /\
    members ["tar"; "-czf"; chapter ++ ".tgz"] = [] /\
    exit_code exec w = 0%Z /\
    exec ["tar"; "-czf"; chapter ++ ".tgz"] (dir w) =
      (dir_after exec w, status).
Proof.
  intros H None.
  assert (E : dfy_files (dir w) = []).
  { destruct (dfy_files (dir w)) as [|f fs] eqn:E; [reflexivity|].
    exfalso. assert (Hf : In f (dfy_files (dir w))) by (rewrite E; now left).
    apply in_dfy_files in Hf. destruct Hf as [Hin Hm]. exact (None f Hin Hm). }
  assert (C : command w chapter = ["tar"; "-czf"; chapter ++ ".tgz"]).
  { unfold command. rewrite E. reflexivity. }
  exists (snd (exec (command w chapter) (dir w))).
  rewrite (events_success exec w chapter H).
  unfold exit_code, dir_after.
  rewrite (main_success exec w chapter (proj2 (chapter_of_ret w chapter) H)).
  rewrite C. simpl.
  repeat split. now destruct (exec ["tar"; "-czf"; chapter ++ ".tgz"] (dir w)).
Qed.

Lemma empty_member_list_still_passed_witness :
  Derived_name w_empty "chapter3" /\
  (forall f, In f (dir w_empty) -> ~ Matches_star_dfy f) /\
  exists status,
    events tar_ok w_empty =
      [Spawn ["tar"; "-czf"; "chapter3" ++ ".tgz"] status;
       Write Stdout
         ("Please upload " ++ ("chapter3" ++ ".tgz")
            ++ " to the submission site." ++ String "010" "")] /\
    members ["tar"; "-czf"; "chapter3" ++ ".tgz"] = [] /\
    exit_code tar_ok w_empty = 0%Z /\
    tar_ok ["tar"; "-czf"; "chapter3" ++ ".tgz"] (dir w_empty) =
      (dir_after tar_ok w_empty, status).
Proof.
  assert (N : forall f, In f (dir w_empty) -> ~ Matches_star_dfy f).
  { intros f [<- | []] [E _]. apply fnmatch_star_dfy in E. discriminate. }
  split; [apply derived_chapter3|]. split; [exact N|].
  exact (empty_member_list_still_passed tar_ok w_empty "chapter3"
           (derived_chapter3 _ _) N).
Defined.

(** C4 as first stated does not hold: in a chapter directory without
    Dafny files, with an archiver that refuses an empty member list as
    GNU tar does, the run prints the upload line and ends with code 0,
    and there is no archive in the directory afterwards. *)
Lemma empty_archive_not_created :
  Derived_name w_empty "chapter3" /\
  (forall f, In f (dir w_empty) -> ~ Matches_star_dfy f) /\
  events tar_ok w_empty =
    [Spawn ["tar"; "-czf"; "chapter3.tgz"] 2;
     Write Stdout
       ("Please upload chapter3.tgz to the submission site."
          ++ String "010" "")] /\
  exit_code tar_ok w_empty = 0%Z /\
  dir_after tar_ok w_empty = ["notes.txt"] /\
  ~ In "chapter3.tgz" (dir_after tar_ok w_empty).
Proof.
  split; [apply derived_chapter3|]. split.
  - intros f [<- | []] [E _]. apply fnmatch_star_dfy in E. discriminate.
  - split; [reflexivity|]. split; [reflexivity|]. split; [reflexivity|].
    intros [X | []]. discriminate X.
Qed.

(** C5, as amended.  In a run that derives a name, standard output
    receives one piece of text: [Please upload NAME.tgz to the
    submission site.] followed by a line feed, where NAME is the derived
    name; nothing goes to standard error.  When the working directory
    has no line feed in its path, that text is exactly one line: its
    only line feed is the one that ends it. *)
Theorem upload_line_on_stdout
    (exec : program) (w : world) (chapter : string) :
  Derived_name w chapter ->
  written Stdout (events exec w) =
    ["Please upload " ++ (chapter ++ ".tgz")
       ++ " to the submission site." ++ String "010" ""] /\
  written Stderr (events exec w) = [] /\
  (Free_of "010" (cwd w) ->
   Free_of "010"
     ("Please upload " ++ (chapter ++ ".tgz") ++ " to the submission site.") /\
   count_char "010"
     ("Please upload " ++ (chapter ++ ".tgz")
        ++ " to the submission site." ++ String "010" "") = 1).
Proof.
  intros H. rewrite (events_success exec w chapter H).
  split; [reflexivity|]. split; [reflexivity|]. intros Hw.
  destruct (upload_line_is_one_line w chapter Hw H) as [C [line [E F]]].
  split; [|exact C].
  assert (X : success_message chapter =
              ("Please upload " ++ (chapter ++ ".tgz")
                 ++ " to the submission site.") ++ nl)
    by (unfold success_message; now rewrite !append_assoc).
  rewrite X in E. apply append_inv_suffix_length in E; [|reflexivity].
  destruct E as [-> _]. exact F.
Qed.

Lemma upload_line_on_stdout_witness :
  Derived_name w_chapter3 "chapter3" /\
  Free_of "010" (cwd w_chapter3) /\
  written Stdout (events tar_ok w_chapter3) =
    ["Please upload chapter3.tgz to the submission site." ++ String "010" ""] /\
  written Stderr (events tar_ok w_chapter3) = [] /\
  Free_of "010" "Please upload chapter3.tgz to the submission site." /\
  count_char "010"
    ("Please upload chapter3.tgz to the submission site." ++ String "010" "")
    = 1.
Proof.
  assert (Hw : Free_of "010" (cwd w_chapter3))
    by (unfold Free_of; simpl; intuition discriminate).
  destruct (upload_line_on_stdout tar_ok w_chapter3 "chapter3"
              (derived_chapter3 _ _)) as [O [E L]].
  destruct (L Hw) as [F C].
  split; [apply derived_chapter3|]. split; [exact Hw|].
  split; [exact O|]. split; [exact E|]. split; [exact F | exact C].
Defined.

(** C5 as first stated does not hold: a directory name may contain a
    line feed, and then the text on standard output spans two lines. *)
Lemma upload_line_can_span_two_lines :
  Derived_name
    (World ("/srv/chapter" ++ String "010" "3") ["a.dfy"] [])
    ("chapter" ++ String "010" "3") /\
  written Stdout
    (events tar_ok (World ("/srv/chapter" ++ String "010" "3") ["a.dfy"] [])) =
    ["Please upload chapter"
       ++ String "010" ("3.tgz to the submission site." ++ String "010" "")] /\
  count_char "010"
    ("Please upload chapter"
       ++ String "010" ("3.tgz to the submission site." ++ String "010" "")) = 2.
Proof.
  assert (H : Derived_name
                (World ("/srv/chapter" ++ String "010" "3") ["a.dfy"] [])
                ("chapter" ++ String "010" "3"))
    by (apply chapter_of_ret; reflexivity).
  split; [exact H|]. split; [|reflexivity].
  now rewrite (events_success tar_ok _ _ H).
Qed.

(** C6.  In a run that derives a name, whatever status the archiver
    returns, the run ends with code 0 and prints the upload line; the
    status shows up nowhere but in the record of the child itself. *)
Theorem archiver_status_ignored
    (exec : program) (w : world) (chapter : string) (status : Z) :
  Derived_name w chapter ->
  snd (exec
         (["tar"; "-czf"; (chapter ++ ".tgz")%string] ++ dfy_files (dir w))%list
         (dir w)) = status ->
  exit_code exec w = 0%Z /\
  wait_status (exit_code exec w) = 0%Z /\
  events exec w =
    [Spawn
       (["tar"; "-czf"; (chapter ++ ".tgz")%string] ++ dfy_files (dir w))%list
       status;
     Write Stdout
       ("Please upload " ++ (chapter ++ ".tgz")
          ++ " to the submission site." ++ nl)].
Proof.
  intros H S. fold (command w chapter) in *.
  rewrite (events_success exec w chapter H), S.
  unfold exit_code.
  rewrite (main_success exec w chapter (proj2 (chapter_of_ret w chapter) H)).
  repeat split.
Qed.

Lemma archiver_status_ignored_witness :
  Derived_name w_chapter3 "chapter3" /\
  snd (tar_fails
         (["tar"; "-czf"; ("chapter3" ++ ".tgz")%string]
            ++ dfy_files (dir w_chapter3))%list
         (dir w_chapter3)) = 2%Z /\
  exit_code tar_fails w_chapter3 = 0%Z /\
  wait_status (exit_code tar_fails w_chapter3) = 0%Z /\
  events tar_fails w_chapter3 =
    [Spawn
       (["tar"; "-czf"; ("chapter3" ++ ".tgz")%string]
          ++ dfy_files (dir w_chapter3))%list
       2%Z;
     Write Stdout
       ("Please upload " ++ ("chapter3" ++ ".tgz")
          ++ " to the submission site." ++ nl)].
Proof.
  split; [apply derived_chapter3|]. split; [reflexivity|].
  exact (archiver_status_ignored tar_fails w_chapter3 "chapter3" 2%Z
           (derived_chapter3 _ _) eq_refl).
Defined.

Lemma segments_cwd (w w' : world) : cwd w' = cwd w -> segments w' = segments w.
Proof. unfold segments. now intros ->. Qed.

Lemma cwd_after (exec : program) (w : world) :
  cwd (snd (main exec w)) = cwd w.
Proof.
  destruct (chapter_of_cases w) as [[c E] | E].
  - now rewrite (main_success exec w c E).
  - now rewrite (main_failure exec w E).
Qed.

(** A run that cannot derive a name changes nothing but the log, so
    running again fails in the same way. *)
Lemma rerun_failure (exec1 exec2 : program) (w : world) :
  Forall (fun seg => ~ Names_chapter seg) (segments w) ->
  events exec2 (snd (main exec1 w)) = events exec1 w /\
  exit_code exec2 (snd (main exec1 w)) = exit_code exec1 w.
Proof.
  intros H.
  assert (H' : Forall (fun seg => ~ Names_chapter seg)
                 (segments (snd (main exec1 w))))
    by (now rewrite (segments_cwd w _ (cwd_after exec1 w))).
  rewrite (events_failure exec2 _ H'), (events_failure exec1 _ H).
  split; [reflexivity|]. unfold exit_code.
  rewrite (main_failure exec2 (snd (main exec1 w))),
    (main_failure exec1 w); [reflexivity| |]; apply chapter_of_raise; now split.
Qed.

(** C7.  Run the script, and run it again in what the first run left
    behind (same working directory; the directory as the archiver left
    it, where the archiver may have created or replaced the archive and
    nothing else).  Both runs derive the same name and ask for the same
    archive, and a name is a member in the first run exactly when it is
    one in the second. *)
Theorem rerun_same_name_and_members
    (exec1 exec2 : program) (w : world) (chapter : string) :
  Touches_only_archive exec1 ->
  Derived_name w chapter ->
  cwd (snd (main exec1 w)) = cwd w /\
  Derived_name (snd (main exec1 w)) chapter /\
  exists argv1 argv2,
    spawned (events exec1 w) = [argv1] /\
    spawned (events exec2 (snd (main exec1 w))) = [argv2] /\
    firstn 3 argv1 = ["tar"; "-czf"; chapter ++ ".tgz"] /\
    firstn 3 argv2 = ["tar"; "-czf"; chapter ++ ".tgz"] /\
    forall f, In f (members argv1) <-> In f (members argv2).
Proof.
  intros T H.
  assert (H1 : Derived_name (snd (main exec1 w)) chapter).
  { unfold Derived_name. now rewrite (segments_cwd w _ (cwd_after exec1 w)). }
  split; [apply cwd_after|]. split; [exact H1|].
  exists (command w chapter), (command (snd (main exec1 w)) chapter).
  rewrite (events_success exec1 w chapter H).
  rewrite (events_success exec2 _ chapter H1).
  repeat (split; [reflexivity|]).
  intros f. unfold command, members. simpl skipn.
  rewrite !in_dfy_files.
  rewrite (main_success exec1 w chapter (proj2 (chapter_of_ret w chapter) H)).
  simpl dir. split; intros [Hin Hm]; (split; [|exact Hm]).
  - apply T; [|exact Hin]. simpl. intros ->. destruct Hm as [Hm _].
    now apply tgz_not_dfy in Hm.
  - apply T in Hin; [exact Hin|]. simpl. intros ->. destruct Hm as [Hm _].
    now apply tgz_not_dfy in Hm.
Qed.

Lemma rerun_same_name_and_members_witness :
  Touches_only_archive tar_ok /\
  Derived_name w_chapter3 "chapter3" /\
  cwd (snd (main tar_ok w_chapter3)) = cwd w_chapter3 /\
  Derived_name (snd (main tar_ok w_chapter3)) "chapter3" /\
  exists argv1 argv2,
    spawned (events tar_ok w_chapter3) = [argv1] /\
    spawned (events tar_fails (snd (main tar_ok w_chapter3))) = [argv2] /\
    firstn 3 argv1 = ["tar"; "-czf"; "chapter3" ++ ".tgz"] /\
    firstn 3 argv2 = ["tar"; "-czf"; "chapter3" ++ ".tgz"] /\
    forall f, In f (members argv1) <-> In f (members argv2).
Proof.
  split; [exact tar_ok_touches_only_archive|].
  split; [apply derived_chapter3|].
  exact (rerun_same_name_and_members tar_ok tar_fails w_chapter3 "chapter3"
           tar_ok_touches_only_archive (derived_chapter3 _ _)).
Defined.

(** The script gets past the name derivation exactly when the
    derivation returns a name. *)
Lemma proceeds_iff_named (exec : program) (w : world) :
  spawned (events exec w) <> [] <-> exists chapter, chapter_of w = Ret chapter.
Proof.
  destruct (chapter_of_cases w) as [[c E] | E].
  - rewrite (events_success exec w c (proj1 (chapter_of_ret w c) E)).
    split; [intros _; now exists c | discriminate].
  - assert (F : Forall (fun seg => ~ Names_chapter seg) (segments w))
      by (now apply (chapter_of_raise w IndexError)).
    rewrite (events_failure exec w F). split; [now intros [] |].
    intros [c E']. congruence.
Qed.

(** C8.  A name the derivation returns is one of the segments, contains
    [chapter] or [project], and so is not the empty string: it has at
    least the seven characters of either word. *)
Theorem derived_name_nonempty (w : world) (chapter : string) :
  chapter_of w = Ret chapter ->
  In chapter (split os.sep (posixpath.normpath (cwd w))) /\
  Names_chapter chapter /\
  chapter <> "" /\
  7 <= String.length chapter.
Proof.
  intros E. apply chapter_of_ret in E.
  destruct E as [b [a [E [N _]]]]. fold (segments w). split.
  - rewrite E. apply in_elt.
  - split; [exact N|].
    assert (L : 7 <= String.length chapter)
      by (destruct N as [N | N]; apply Substring_length in N; exact N).
    split; [|exact L]. intros ->. simpl in L. lia.
Qed.

Lemma derived_name_nonempty_witness :
  chapter_of w_chapter3 = Ret "chapter3" /\
  In "chapter3" (split os.sep (posixpath.normpath (cwd w_chapter3))) /\
  Names_chapter "chapter3" /\
  "chapter3" <> "" /\
  7 <= String.length "chapter3".
Proof.
  split; [reflexivity|].
  exact (derived_name_nonempty w_chapter3 "chapter3" eq_refl).
Defined.

(** C9.  The test for [chapter] and [project] distinguishes upper and
    lower case.  In [/home/user/course/Chapter3] the only candidate
    segment is [Chapter3]; it does not pass, and the run takes the
    failure path, while the same path spelled [chapter3] succeeds. *)
Theorem matching_is_case_sensitive
    (exec : program) (d : list string) (l : list event) :
  segments (World "/home/user/course/Chapter3" d l) =
    [""; "home"; "user"; "course"; "Chapter3"] /\
  ~ Names_chapter "Chapter3" /\
  Names_chapter "chapter3" /\
  main exec (World "/home/user/course/Chapter3" d l) =
    ((-1)%Z,
     World "/home/user/course/Chapter3" d
       (l ++ [Write Stderr
                ("Cannot determine chapter name from current path." ++ nl)])%list) /\
  exit_code exec (World "/home/user/course/chapter3" d l) = 0%Z.
Proof.
  split; [reflexivity|].
  split; [apply names_chapter_false; reflexivity|].
  split; [apply names_chapter_spec; reflexivity|].
  split.
  - apply (main_failure exec (World "/home/user/course/Chapter3" d l)).
    reflexivity.
  - unfold exit_code.
    now rewrite (main_success exec (World "/home/user/course/chapter3" d l)
                   "chapter3" eq_refl).
Qed.

(** C10.  A name that begins with a dot is never among the archive
    members, whether or not it ends in [.dfy]: in a directory holding
    [.hidden.dfy] and [a.dfy] only [a.dfy] is passed to the archiver. *)
Theorem hidden_files_excluded
    (exec : program) (w : world) (chapter rest : string) :
  Derived_name w chapter ->
  (exists argv,
      spawned (events exec w) = [argv] /\
      ~ In (String "." rest) (members argv)) /\
  Ends_with ".dfy" ".hidden.dfy" /\
  spawned (events exec w_hidden) = [["tar"; "-czf"; "chapter3.tgz"; "a.dfy"]].
Proof.
  intros H. split.
  - exists (command w chapter). rewrite (events_success exec w chapter H).
    split; [reflexivity|]. unfold command, members. simpl skipn.
    rewrite in_dfy_files. intros [_ [_ N]]. now apply (N rest).
  - split; [now exists ".hidden" |].
    now rewrite (events_success exec w_hidden "chapter3" (derived_chapter3 _ _)).
Qed.

Lemma hidden_files_excluded_witness :
  Derived_name w_hidden "chapter3" /\
  (exists argv,
      spawned (events tar_ok w_hidden) = [argv] /\
      ~ In ".hidden.dfy" (members argv)) /\
  Ends_with ".dfy" ".hidden.dfy" /\
  spawned (events tar_ok w_hidden) = [["tar"; "-czf"; "chapter3.tgz"; "a.dfy"]].
Proof.
  split; [apply derived_chapter3|].
  exact (hidden_files_excluded tar_ok w_hidden "chapter3" "hidden.dfy"
           (derived_chapter3 _ _)).
Defined.

(** ** Further properties of the script *)

Ltac literal_component :=
  repeat split; try discriminate; unfold Free_of; simpl; intuition discriminate.

(** X2.  The derived name holds no path separator and is neither [.]
    nor [..], so the archive name is a plain file name: the archive is
    written into the directory the script runs in. *)
Theorem archive_name_is_plain (w : world) (chapter : string) :
  Derived_name w chapter ->
  Free_of "/" (chapter ++ ".tgz") /\ chapter <> "." /\ chapter <> "..".
Proof.
  intros H.
  assert (L : 7 <= String.length chapter).
  { destruct H as [_ [_ [_ [[N | N] _]]]]; apply Substring_length in N; exact N. }
  split.
  - destruct H as [b [a [E _]]].
    pose proof (split_segments_free os.sep (posixpath.normpath (cwd w))) as F.
    fold (segments w) in F. rewrite E in F.
    apply Forall_elt in F. unfold Free_of in *.
    rewrite chars_append, in_app_iff. intros [X | X]; [exact (F X)|].
    simpl in X. intuition discriminate.
  - split; intros ->; simpl in L; lia.
Qed.

Lemma archive_name_is_plain_witness :
  Derived_name w_chapter3 "chapter3" /\
  Free_of "/" ("chapter3" ++ ".tgz") /\ "chapter3" <> "." /\ "chapter3" <> "..".
Proof.
  split; [apply derived_chapter3|].
  exact (archive_name_is_plain w_chapter3 "chapter3" (derived_chapter3 _ _)).
Defined.

Lemma tgz_suffix_not_dfy (name : string) :
  Ends_with ".tgz" name -> ~ Ends_with ".dfy" name.
Proof.
  intros [s1 ->] [s2 E].
  apply append_inv_suffix_length in E; [|reflexivity].
  destruct E as [_ E]. discriminate.
Qed.

(** X3.  No name that ends in [.tgz] is ever passed as a member: the
    archive being written, and archives left by earlier runs, stay out
    of the archive. *)
Theorem archives_never_members
    (exec : program) (w : world) (chapter name : string) :
  Derived_name w chapter ->
  Ends_with ".tgz" name ->
  forall argv, In argv (spawned (events exec w)) -> ~ In name (members argv).
Proof.
  intros H T argv. rewrite (events_success exec w chapter H). simpl.
  intros [<- | []]. unfold command, members. simpl skipn.
  rewrite in_dfy_files. intros [_ [D _]]. exact (tgz_suffix_not_dfy name T D).
Qed.

Lemma archives_never_members_witness :
  Derived_name
    (World "/home/user/course/chapter3" ["a.dfy"; "chapter3.tgz"] [])
    "chapter3" /\
  Ends_with ".tgz" "chapter3.tgz" /\
  forall argv,
    In argv
      (spawned
         (events tar_ok
            (World "/home/user/course/chapter3" ["a.dfy"; "chapter3.tgz"] []))) ->
    ~ In "chapter3.tgz" (members argv).
Proof.
  assert (T : Ends_with ".tgz" "chapter3.tgz") by (now exists "chapter3").
  split; [apply derived_chapter3|]. split; [exact T|].
  exact (archives_never_members tar_ok _ "chapter3" "chapter3.tgz"
           (derived_chapter3 _ _) T).
Defined.

(** X4.  Going down into directories whose names contain neither word
    does not change the derived name: run from [chapter3/src/util], the
    script still packs under [chapter3]. *)
Theorem subdirectory_keeps_name
    (comps sub d d' : list string) (l l' : list event) (chapter : string) :
  Forall Component comps ->
  Forall Component sub ->
  Forall (fun c => ~ Names_chapter c) sub ->
  chapter_of (World (abspath comps) d l) = Ret chapter ->
  chapter_of (World (abspath (comps ++ sub)) d' l') = Ret chapter.
Proof.
  intros Fc Fs Ns H.
  destruct comps as [|c0 comps]; [vm_compute in H; discriminate|].
  apply chapter_of_ret in H. unfold Derived_name in H.
  rewrite (segments_abspath _ d l Fc) in H by discriminate.
  destruct H as [b [a [E [N Fa]]]].
  apply chapter_of_ret. unfold Derived_name.
  rewrite (segments_abspath _ d' l') by
    (try (apply Forall_app; now split); discriminate).
  exists b, (a ++ sub)%list. split.
  - rewrite app_comm_cons, E, <- app_assoc. reflexivity.
  - split; [exact N|]. apply Forall_app. now split.
Qed.

Lemma subdirectory_keeps_name_witness :
  Forall Component ["home"; "chapter3"] /\
  Forall Component ["src"; "util"] /\
  Forall (fun c => ~ Names_chapter c) ["src"; "util"] /\
  chapter_of (World (abspath ["home"; "chapter3"]) [] []) = Ret "chapter3" /\
  chapter_of
    (World (abspath (["home"; "chapter3"] ++ ["src"; "util"])) ["x.dfy"] []) =
    Ret "chapter3".
Proof.
  assert (Fc : Forall Component ["home"; "chapter3"])
    by (repeat constructor; literal_component).
  assert (Fs : Forall Component ["src"; "util"])
    by (repeat constructor; literal_component).
  assert (Ns : Forall (fun c => ~ Names_chapter c) ["src"; "util"])
    by (repeat constructor; apply names_chapter_false; reflexivity).
  split; [exact Fc|]. split; [exact Fs|]. split; [exact Ns|].
  split; [reflexivity|].
  exact (subdirectory_keeps_name _ _ [] ["x.dfy"] [] [] "chapter3"
           Fc Fs Ns eq_refl).
Defined.

(** X5.  When the working directory's own name contains [chapter] or
    [project], that name is the derived name, whatever the directories
    above it are called. *)
Theorem working_directory_name_wins
    (comps d : list string) (l : list event) (c : string) :
  Forall Component comps ->
  Component c ->
  names_chapter c = true ->
  chapter_of (World (abspath (comps ++ [c])) d l) = Ret c.
Proof.
  intros Fc Hc N. apply chapter_of_ret. unfold Derived_name.
  rewrite (segments_abspath _ d l).
  - exists ("" :: comps), []. split; [reflexivity|].
    split; [now apply names_chapter_spec | constructor].
  - apply Forall_app. split; [exact Fc | now constructor].
  - now destruct comps.
Qed.

Lemma working_directory_name_wins_witness :
  Forall Component ["srv"; "project7"] /\
  Component "chapter3" /\
  names_chapter "chapter3" = true /\
  chapter_of (World (abspath (["srv"; "project7"] ++ ["chapter3"])) [] []) =
    Ret "chapter3".
Proof.
  assert (Fc : Forall Component ["srv"; "project7"])
    by (repeat constructor; literal_component).
  assert (Hc : Component "chapter3") by literal_component.
  split; [exact Fc|]. split; [exact Hc|]. split; [reflexivity|].
  exact (working_directory_name_wins _ [] [] "chapter3" Fc Hc eq_refl).
Defined.

(** X6.  For a working directory as the operating system reports it
    (absolute, without empty, [.] or [..] components) normalization
    changes nothing, and the derived name is the last directory name on
    the path that contains [chapter] or [project]. *)
Theorem name_from_directory_names
    (comps d : list string) (l : list event) (chapter : string) :
  Forall Component comps ->
  Last_with Names_chapter comps chapter ->
  posixpath.normpath (abspath comps) = abspath comps /\
  chapter_of (World (abspath comps) d l) = Ret chapter.
Proof.
  intros F [b [a [E [N Fa]]]]. split; [now apply normpath_abspath|].
  apply chapter_of_ret. unfold Derived_name.
  rewrite (segments_abspath comps d l F) by (rewrite E; now destruct b).
  exists ("" :: b), a. rewrite E. now repeat split.
Qed.

Lemma name_from_directory_names_witness :
  Forall Component ["srv"; "project7"; "chapter3"; "build"] /\
  Last_with Names_chapter ["srv"; "project7"; "chapter3"; "build"] "chapter3" /\
  posixpath.normpath (abspath ["srv"; "project7"; "chapter3"; "build"]) =
    abspath ["srv"; "project7"; "chapter3"; "build"] /\
  chapter_of
    (World (abspath ["srv"; "project7"; "chapter3"; "build"]) [] []) =
    Ret "chapter3".
Proof.
  assert (F : Forall Component ["srv"; "project7"; "chapter3"; "build"])
    by (repeat constructor; literal_component).
  assert (L : Last_with Names_chapter
                ["srv"; "project7"; "chapter3"; "build"] "chapter3").
  { exists ["srv"; "project7"], ["build"]. split; [reflexivity|]. split.
    - apply names_chapter_spec. reflexivity.
    - repeat constructor. apply names_chapter_false. reflexivity. }
  split; [exact F|]. split; [exact L|].
  exact (name_from_directory_names _ [] [] "chapter3" F L).
Defined.

(** Normalizing invents no segment: but for the empty segment and the
    dot, every segment of the normalized path is a segment of the path. *)
Lemma normpath_segments_incl (path x : string) :
  In x (split "/" (posixpath.normpath path)) ->
  x = "" \/ x = "." \/ In x (split "/" path).
Proof.
  unfold posixpath.normpath. cbv zeta.
  destruct (String.eqb path ""); [intros [<- | []]; auto|].
  set (n := if startswith path "/" then _ else 0).
  set (nc := fold_left (posixpath.norm_step n) (split "/" path) []).
  assert (Hnc : forall y, In y nc -> In y (split "/" path)).
  { intros y Hy. apply fold_norm_step_incl in Hy. now destruct Hy as [[] | Hy]. }
  destruct (String.eqb (str_mul "/" n ++ join "/" nc) "");
    [intros [<- | []]; auto|].
  rewrite split_str_mul_slash, in_app_iff. intros [H | H].
  - left. now apply repeat_spec in H.
  - destruct nc as [|c nc'] eqn:Enc.
    + destruct H as [<- | []]. now left.
    + change "/" with (String "/"%char "") in H.
      rewrite split_join in H; [right; right; now apply Hnc | discriminate |].
      apply Forall_forall. intros y Hy.
      pose proof (split_segments_free "/" path) as F.
      rewrite Forall_forall in F. apply F, Hnc, Hy.
Qed.

(** X7.  Whatever string the working directory is, normalized or not,
    a derived name is one of the segments of that string itself:
    normalization never makes up a name. *)
Theorem derived_name_is_raw_segment (w : world) (chapter : string) :
  chapter_of w = Ret chapter -> In chapter (split os.sep (cwd w)).
Proof.
  intros H. apply chapter_of_ret in H.
  assert (L : 7 <= String.length chapter).
  { destruct H as [_ [_ [_ [[N | N] _]]]]; apply Substring_length in N; exact N. }
  destruct H as [b [a [E _]]].
  assert (Hin : In chapter (segments w)) by (rewrite E; apply in_elt).
  destruct (normpath_segments_incl _ _ Hin) as [-> | [-> | X]];
    [simpl in L; lia | simpl in L; lia | exact X].
Qed.

Lemma derived_name_is_raw_segment_witness :
  chapter_of (World "/home//user/./chapter3/" [] []) = Ret "chapter3" /\
  In "chapter3" (split os.sep (cwd (World "/home//user/./chapter3/" [] []))).
Proof.
  split; [reflexivity|].
  exact (derived_name_is_raw_segment
           (World "/home//user/./chapter3/" [] []) "chapter3" eq_refl).
Defined.

(** X8.  Splitting loses nothing: the segments the script looks at,
    joined again with the separator, are the normalized working
    directory; there is always at least one segment and none of them
    contains the separator. *)
Theorem segments_rejoin (w : world) :
  join "/" (split os.sep (posixpath.normpath (cwd w))) =
    posixpath.normpath (cwd w) /\
  split os.sep (posixpath.normpath (cwd w)) <> [] /\
  Forall (Free_of os.sep) (split os.sep (posixpath.normpath (cwd w))).
Proof.
  split; [apply (join_split os.sep)|].
  split; [apply split_not_nil | apply split_segments_free].
Qed.

(** X9.  When the working directory has no line feed in its name, what
    a successful run puts on standard output is one line: a text free of
    line feeds, ended by one. *)
Theorem stdout_is_one_line (exec : program) (w : world) (chapter : string) :
  Free_of (ascii_of_nat 10) (cwd w) ->
  Derived_name w chapter ->
  exists line,
    written Stdout (events exec w) = [line ++ nl] /\
    Free_of (ascii_of_nat 10) line /\
    count_char (ascii_of_nat 10) (line ++ nl) = 1.
Proof.
  intros Hw H.
  destruct (upload_line_is_one_line w chapter Hw H) as [C [line [E F]]].
  exists line. rewrite (events_success exec w chapter H). simpl.
  rewrite <- E. now repeat split.
Qed.

Lemma stdout_is_one_line_witness :
  Free_of (ascii_of_nat 10) (cwd w_chapter3) /\
  Derived_name w_chapter3 "chapter3" /\
  exists line,
    written Stdout (events tar_ok w_chapter3) = [line ++ nl] /\
    Free_of (ascii_of_nat 10) line /\
    count_char (ascii_of_nat 10) (line ++ nl) = 1.
Proof.
  assert (Hw : Free_of (ascii_of_nat 10) (cwd w_chapter3))
    by (unfold Free_of; simpl; intuition discriminate).
  split; [exact Hw|]. split; [apply derived_chapter3|].
  exact (stdout_is_one_line tar_ok w_chapter3 "chapter3" Hw
           (derived_chapter3 _ _)).
Defined.

(** X10.  A run that cannot derive a name leaves the working directory
    and its contents alone, so a second run, with whatever archiver,
    does and reports exactly the same. *)
Theorem failure_repeats (exec1 exec2 : program) (w : world) :
  Forall (fun seg => ~ Names_chapter seg)
    (split os.sep (posixpath.normpath (cwd w))) ->
  cwd (snd (main exec1 w)) = cwd w /\
  dir (snd (main exec1 w)) = dir w /\
  events exec2 (snd (main exec1 w)) = events exec1 w /\
  exit_code exec2 (snd (main exec1 w)) = exit_code exec1 w.
Proof.
  intros H. split; [apply cwd_after|]. split.
  - rewrite (main_failure exec1 w); [reflexivity|].
    apply chapter_of_raise. now split.
  - now apply rerun_failure.
Qed.

Lemma failure_repeats_witness :
  Forall (fun seg => ~ Names_chapter seg)
    (split os.sep (posixpath.normpath (cwd w_lab3))) /\
  cwd (snd (main tar_ok w_lab3)) = cwd w_lab3 /\
  dir (snd (main tar_ok w_lab3)) = dir w_lab3 /\
  events tar_fails (snd (main tar_ok w_lab3)) = events tar_ok w_lab3 /\
  exit_code tar_fails (snd (main tar_ok w_lab3)) = exit_code tar_ok w_lab3.
Proof.
  split; [exact no_name_lab3|].
  exact (failure_repeats tar_ok tar_fails w_lab3 no_name_lab3).
Defined.

(** X11.  What a run does to its surroundings, on either path: the
    working directory stays, what was logged before stays in front of
    what the run adds, exactly one text is written (to one stream or to
    the other, never to both), and the directory is either untouched,
    with no child started, or is what the one child left when started
    in the directory as the run found it. *)
Theorem run_effects (exec : program) (w : world) :
  cwd (snd (main exec w)) = cwd w /\
  log (snd (main exec w)) = (log w ++ events exec w)%list /\
  length (written Stdout (events exec w)
            ++ written Stderr (events exec w))%list = 1 /\
  ((spawned (events exec w) = [] /\ dir_after exec w = dir w) \/
   (exists argv,
       spawned (events exec w) = [argv] /\
       dir_after exec w = fst (exec argv (dir w)))).
Proof.
  split; [apply cwd_after|]. split; [apply log_extends|].
  unfold dir_after. destruct (chapter_of_cases w) as [[c E] | E].
  - rewrite (events_success exec w c (proj1 (chapter_of_ret w c) E)).
    rewrite (main_success exec w c E). simpl.
    split; [reflexivity|]. right. now exists (command w c).
  - assert (F : Forall (fun seg => ~ Names_chapter seg) (segments w))
      by (now apply (chapter_of_raise w IndexError)).
    rewrite (events_failure exec w F), (main_failure exec w E). simpl.
    split; [reflexivity|]. now left.
Qed.

Lemma Substring_extend (needle seg before after : string) :
  Substring needle seg -> Substring needle (before ++ seg ++ after).
Proof.
  intros [a [b ->]]. exists (before ++ a), (b ++ after).
  now rewrite !append_assoc.
Qed.

(** X12.  The test looks for the two words anywhere in a segment, so
    a segment that passes still passes with any text put before or
    after it: [projector] and [old-chapter3.bak] name a chapter as much
    as [project] and [chapter3] do. *)
Theorem matching_survives_extension (seg before after : string) :
  names_chapter seg = true ->
  names_chapter (before ++ seg ++ after) = true.
Proof.
  intros H. apply names_chapter_spec in H. apply names_chapter_spec.
  destruct H as [H | H]; [left | right]; now apply Substring_extend.
Qed.

Lemma matching_survives_extension_witness :
  names_chapter "chapter3" = true /\
  names_chapter ("old-" ++ "chapter3" ++ ".bak") = true.
Proof.
  split; [reflexivity|].
  exact (matching_survives_extension "chapter3" "old-" ".bak" eq_refl).
Defined.
